(** * The editor panel of src/core/editor/editor.cpp

    A shallow embedding of [cEditor] and [cEditor_Menu_Entry]: the menu
    definition loader ([parse_menu_file]), the tag matcher
    ([find_target_menu_entries_for]), the asset scanner
    ([Try_Add_Editor_Item], [load_image_items]), the category panel
    ([Add_Image_Item]), the name lookup ([get_menu_entry]) and the
    visibility state machine ([Update], [on_mouse_enter], [on_mouse_leave],
    [Enable], [Disable], [Toggle]).

    Conventions of the embedding.
    - A C++ member function that mutates [*this] is a function from the
      object to the new object; one that can also throw returns the object
      together with an [outcome].
    - A [cEditor_Menu_Entry*] is the position of the pointed object in
      [m_menu_entries]: every element of that vector comes from its own
      [new] in [parse_menu_file], so two positions never alias.
    - [float] quantities (timer, alpha, CEGUI dimensions) are rationals
      [Q].  The arithmetic of the timer and the alpha is exact: its rounding
      is not modelled.  An [int] that becomes a CEGUI dimension is rounded
      as the conversion to a float with a 24-bit significand rounds it.
    - The running offset of a panel is a 32-bit [int]: sums on it wrap
      around, as they do in the program as built.
    - The embedding covers an editor after [Init]: [mp_editor_tabpane] is a
      live window, held by value in the record.
    - CEGUI, the audio system, the XML parser and the file system are
      collaborators: the XML document and the settings files are inputs. *)

From Stdlib Require Import ZArith QArith Lqa String Ascii.
From stdpp Require Import base list strings.

Open Scope string_scope.
Open Scope list_scope.

(** ** Control flow outcomes *)

Inductive exception : Type :=
| runtime_error (what : string)        (* std::runtime_error *)
| xmlpp_exception (what : string)      (* thrown by xmlpp::DomParser::parse_file *)
| SettingsParseError (what : string).  (* failure of the settings parser *)

(** Result of running a piece of code: normal completion, a C++ exception
    leaving the function, or undefined behaviour (reading element 0 of an
    empty vector, calling a member through a null pointer). *)
Inductive outcome (A : Type) : Type :=
| Normal (a : A)
| Thrown (e : exception)
| Undefined.
Arguments Normal {A} a.
Arguments Thrown {A} e.
Arguments Undefined {A}.

#[global] Instance outcome_ret : MRet outcome := fun A a => Normal a.

#[global] Instance outcome_bind : MBind outcome := fun A B k m =>
  match m with
  | Normal a => k a
  | Thrown e => Thrown e
  | Undefined => Undefined
  end.

(** ** Strings *)

(** [std::string::find(pat)] from position 0: the first position at which
    [pat] occurs in [s]; [None] is [std::string::npos]. *)
Fixpoint find_from (pos : nat) (pat s : string) : option nat :=
  if String.prefix pat s then Some pos
  else match s with
       | EmptyString => None
       | String _ s' => find_from (S pos) pat s'
       end.

Definition string_find (s pat : string) : option nat := find_from 0 pat s.

(** [pat] occurs somewhere inside [s]. *)
Definition is_substring (pat s : string) : Prop :=
  exists pre post : string, s = pre +:+ pat +:+ post.

Fixpoint split_from (delim : string) (skip : nat) (cur s : string) : list string :=
  match s with
  | EmptyString => [cur]
  | String c s' =>
      match skip with
      | S k => split_from delim k cur s'
      | O =>
          if String.prefix delim s && negb (String.eqb delim "")
          then cur :: split_from delim (String.length delim - 1) "" s'
          else split_from delim 0 (cur +:+ String c "") s'
      end
  end.

(** Modelled from the spec: [string_split] is declared in
    core/property_helper.hpp, which is not among the sources; the spec
    describes tag strings as ';'-delimited lists, so the model cuts [str] at
    every occurrence of [delimiter] and keeps the pieces in order. *)
Definition string_split (str delimiter : string) : list string :=
  split_from delimiter 0 "" str.

Fixpoint replace_from (from to : string) (skip : nat) (s : string) : string :=
  match s with
  | EmptyString => ""
  | String c s' =>
      match skip with
      | S k => replace_from from to k s'
      | O =>
          if String.prefix from s && negb (String.eqb from "")
          then to +:+ replace_from from to (String.length from - 1) s'
          else String c (replace_from from to 0 s')
      end
  end.

(** Modelled from the spec: [string_replace_all] is declared in
    core/property_helper.hpp, which is not among the sources; the spec asks
    for path separators to be replaced with a toolkit-safe character, so the
    model replaces every occurrence of [from] by [to]. *)
Definition string_replace_all (s from to : string) : string :=
  replace_from from to 0 s.

(** ** The toolkit boundary *)

(** [CEGUI::UDim(scale, offset)]. *)
Record UDim : Type := mkUDim { d_scale : Q; d_offset : Q }.

(** A CEGUI window as far as the editor configures it. *)
Record Window : Type := mkWindow {
  w_type : string;
  w_name : string;
  w_text : string;
  w_size : UDim * UDim;
  w_position : UDim * UDim;
  w_properties : list (string * string)
}.

Definition createWindow (type name : string) : Window :=
  {| w_type := type; w_name := name; w_text := "";
     w_size := (mkUDim 0 0, mkUDim 0 0);
     w_position := (mkUDim 0 0, mkUDim 0 0);
     w_properties := [] |}.

Definition setText (text : string) (w : Window) : Window :=
  {| w_type := w_type w; w_name := w_name w; w_text := text;
     w_size := w_size w; w_position := w_position w;
     w_properties := w_properties w |}.

Definition setSize (size : UDim * UDim) (w : Window) : Window :=
  {| w_type := w_type w; w_name := w_name w; w_text := w_text w;
     w_size := size; w_position := w_position w;
     w_properties := w_properties w |}.

Definition setPosition (pos : UDim * UDim) (w : Window) : Window :=
  {| w_type := w_type w; w_name := w_name w; w_text := w_text w;
     w_size := w_size w; w_position := pos;
     w_properties := w_properties w |}.

Definition setProperty (key value : string) (w : Window) : Window :=
  {| w_type := w_type w; w_name := w_name w; w_text := w_text w;
     w_size := w_size w; w_position := w_position w;
     w_properties := w_properties w ++ [(key, value)] |}.

(** ** Image settings *)

(** The fields of [cImage_Settings_Data] the editor reads. *)
Record cImage_Settings_Data : Type := mkSettings {
  s_name : string;          (* m_name *)
  m_editor_tags : string    (* raw ';'-delimited tag string *)
}.

(** What the file system holds next to a pixmap. *)
Inductive settings_file : Type :=
| NoSettingsFile                                  (* exists() is false *)
| MalformedSettings (why : string)
| SettingsFile (data : cImage_Settings_Data).

(** Modelled from the spec: [cImage_Settings_Parser::Get] lives in
    video/img_settings.cpp, which is not among the sources; by the spec,
    parsing a settings file yields the settings record and "fails with
    SettingsParseError if malformed".  Neither the sources nor the spec say
    in which form a failure reaches the caller, or who writes the log line
    the spec speaks of; the model lets the failure leave [Get] as an
    exception.  The results below about images whose settings file parses
    do not depend on this choice. *)
Definition cImage_Settings_Parser_Get (f : settings_file) : outcome cImage_Settings_Data :=
  match f with
  | SettingsFile data => Normal data
  | MalformedSettings why => Thrown (SettingsParseError why)
  | NoSettingsFile => Thrown (SettingsParseError "no such file")
  end.

(** ** Menu entries (category panels) *)

(** [Color(colorstr)]: the colour class is outside the sources; an entry
    keeps the hexadecimal string its colour was built from. *)
Inductive Color : Type :=
| Color_default
| Color_of_string (colorstr : string).

Record cEditor_Menu_Entry : Type := mkEntry {
  m_name : string;
  m_color : Color;
  m_required_tags : list string;
  m_is_header : bool;
  m_element_y : Z;               (* running vertical offset *)
  mp_tab_pane : list Window      (* children of the scrollable pane *)
}.

(** [cEditor_Menu_Entry::cEditor_Menu_Entry(name)]. *)
Definition new_cEditor_Menu_Entry (name : string) : cEditor_Menu_Entry :=
  {| m_name := name; m_color := Color_default; m_required_tags := [];
     m_is_header := false; m_element_y := 0; mp_tab_pane := [] |}.

Definition Set_Color (c : Color) (e : cEditor_Menu_Entry) : cEditor_Menu_Entry :=
  {| m_name := m_name e; m_color := c; m_required_tags := m_required_tags e;
     m_is_header := m_is_header e; m_element_y := m_element_y e;
     mp_tab_pane := mp_tab_pane e |}.

Definition Set_Required_Tags (tags : list string) (e : cEditor_Menu_Entry) : cEditor_Menu_Entry :=
  {| m_name := m_name e; m_color := m_color e; m_required_tags := tags;
     m_is_header := m_is_header e; m_element_y := m_element_y e;
     mp_tab_pane := mp_tab_pane e |}.

Definition Set_Header (is_header : bool) (e : cEditor_Menu_Entry) : cEditor_Menu_Entry :=
  {| m_name := m_name e; m_color := m_color e; m_required_tags := m_required_tags e;
     m_is_header := is_header; m_element_y := m_element_y e;
     mp_tab_pane := mp_tab_pane e |}.

(** The value of a 32-bit [int] for the integer [z]: two's complement
    wrap-around. *)
Definition int_wrap (z : Z) : Z := ((z + 2 ^ 31) mod 2 ^ 32 - 2 ^ 31)%Z.

(** [a + b] on [int]. *)
Definition int_add (a b : Z) : Z := int_wrap (a + b).

(** The float an [int] converts to, as a number: integers below [2 ^ 24]
    in absolute value are kept, larger ones are rounded to 24 significant
    bits, to the nearest float and to the even one on a tie. *)
Definition float_of_int (n : Z) : Z :=
  (let a := Z.abs n in
   if a <? 2 ^ 24 then n
   else
     let ulp := 2 ^ (Z.log2 a - 23) in
     let q := a / ulp in
     let r := a mod ulp in
     let q' := if 2 * r <? ulp then q
               else if ulp <? 2 * r then q + 1
               else if Z.even q then q else q + 1 in
     Z.sgn n * (q' * ulp))%Z.

(** [CEGUI::UDim(scale, offset)] with an [int] as offset. *)
Definition UDim_int (scale : Q) (offset : Z) : UDim :=
  mkUDim scale (inject_Z (float_of_int offset)).

Definition labelheight : Z := 24.
Definition imageheight : Z := 48.  (* also image width (square) *)
Definition yskip : Z := 24.

(** [cEditor_Menu_Entry::Add_Image_Item]: a label window and an image
    window are appended to the pane at the running offset, which then
    advances by [labelheight + imageheight + yskip]. *)
Definition Add_Image_Item (pixmap_path : string) (settings : cImage_Settings_Data)
    (e : cEditor_Menu_Entry) : cEditor_Menu_Entry :=
  let escaped_path := string_replace_all pixmap_path "/" "+" in
  let p_label :=
    setProperty "FrameEnabled" "False"
      (setPosition (mkUDim 0 0, UDim_int 0 (m_element_y e))
         (setSize (mkUDim 1 0, UDim_int 0 labelheight)
            (setText (s_name settings)
               (createWindow "TaharezLook/StaticText" ("label-of-" +:+ escaped_path))))) in
  let p_image :=
    setProperty "FrameEnabled" "False"
      (setPosition (UDim_int (1 # 2) (Z.quot (- imageheight) 2),
                    UDim_int 0 (int_add (m_element_y e) labelheight))
         (setSize (UDim_int 0 imageheight, UDim_int 0 imageheight)
            (setProperty "Image" escaped_path
               (createWindow "TaharezLook/StaticImage" ("image-of-" +:+ escaped_path))))) in
  {| m_name := m_name e; m_color := m_color e;
     m_required_tags := m_required_tags e; m_is_header := m_is_header e;
     m_element_y := int_add (m_element_y e) (labelheight + imageheight + yskip);
     mp_tab_pane := mp_tab_pane e ++ [p_label; p_image] |}.

(** ** The editor *)

Record cEditor : Type := mkEditor {
  (* mp_editor_tabpane *)
  tabpane_visible : bool;
  tabpane_alpha : Q;
  tabpane_x : UDim;
  (* members *)
  m_enabled : bool;
  m_rested : bool;
  m_visibility_timer : Q;
  m_mouse_inside : bool;
  m_target_x_position : UDim;
  m_menu_filename : string;
  m_editor_item_tag : string;
  m_menu_entries : list cEditor_Menu_Entry
}.

Definition with_tabpane (visible : bool) (alpha : Q) (x : UDim) (ed : cEditor) : cEditor :=
  {| tabpane_visible := visible; tabpane_alpha := alpha; tabpane_x := x;
     m_enabled := m_enabled ed; m_rested := m_rested ed;
     m_visibility_timer := m_visibility_timer ed;
     m_mouse_inside := m_mouse_inside ed;
     m_target_x_position := m_target_x_position ed;
     m_menu_filename := m_menu_filename ed;
     m_editor_item_tag := m_editor_item_tag ed;
     m_menu_entries := m_menu_entries ed |}.

Definition with_visibility (enabled rested : bool) (timer : Q) (inside : bool)
    (ed : cEditor) : cEditor :=
  {| tabpane_visible := tabpane_visible ed; tabpane_alpha := tabpane_alpha ed;
     tabpane_x := tabpane_x ed;
     m_enabled := enabled; m_rested := rested;
     m_visibility_timer := timer;
     m_mouse_inside := inside;
     m_target_x_position := m_target_x_position ed;
     m_menu_filename := m_menu_filename ed;
     m_editor_item_tag := m_editor_item_tag ed;
     m_menu_entries := m_menu_entries ed |}.

Definition with_menu_entries (entries : list cEditor_Menu_Entry) (ed : cEditor) : cEditor :=
  {| tabpane_visible := tabpane_visible ed; tabpane_alpha := tabpane_alpha ed;
     tabpane_x := tabpane_x ed;
     m_enabled := m_enabled ed; m_rested := m_rested ed;
     m_visibility_timer := m_visibility_timer ed;
     m_mouse_inside := m_mouse_inside ed;
     m_target_x_position := m_target_x_position ed;
     m_menu_filename := m_menu_filename ed;
     m_editor_item_tag := m_editor_item_tag ed;
     m_menu_entries := entries |}.

(** *** Visibility state machine *)

Definition Enable (ed : cEditor) : cEditor :=
  if m_enabled ed then ed
  else
    with_visibility true (m_rested ed) (m_visibility_timer ed) (m_mouse_inside ed)
      (with_tabpane true (tabpane_alpha ed) (tabpane_x ed) ed).

Definition Disable (ed : cEditor) : cEditor :=
  if negb (m_enabled ed) then ed
  else
    with_visibility false (m_rested ed) (m_visibility_timer ed) (m_mouse_inside ed)
      (with_tabpane false (tabpane_alpha ed) (tabpane_x ed) ed).

Definition Toggle (ed : cEditor) : cEditor :=
  if m_enabled ed then Disable ed else Enable ed.

Definition on_mouse_enter (ed : cEditor) : cEditor :=
  with_tabpane (tabpane_visible ed) 1 (m_target_x_position ed)
    (with_visibility (m_enabled ed) false 0 true ed).

Definition on_mouse_leave (ed : cEditor) : cEditor :=
  with_visibility (m_enabled ed) (m_rested ed) (m_visibility_timer ed) false ed.

(** The X position of the parked panel, [CEGUI::UDim(-0.19f, 0.0f)]. *)
Definition rest_x_position : UDim := mkUDim (- (19 # 100)) 0.

Section Visibility.

(** [speedfactor_fps] comes from core/framerate.hpp, which is not among
    the sources; [speed_factor] is [pFramerate->m_speed_factor] as read by
    the tick. *)
Variable speedfactor_fps : Q.

Definition Update (speed_factor : Q) (ed : cEditor) : cEditor :=
  if negb (m_enabled ed) then ed
  else if negb (m_mouse_inside ed) then
    if negb (m_rested ed) then
      let timeout := (speedfactor_fps * 2)%Q in
      if Qle_bool timeout (m_visibility_timer ed) then
        with_visibility (m_enabled ed) true 0 (m_mouse_inside ed)
          (with_tabpane (tabpane_visible ed) 1 rest_x_position ed)
      else
        let timer := (m_visibility_timer ed + speed_factor)%Q in
        let alpha_max := 1%Q in
        with_tabpane (tabpane_visible ed)
          (alpha_max - ((alpha_max * timer) / timeout))%Q (tabpane_x ed)
          (with_visibility (m_enabled ed) (m_rested ed) timer (m_mouse_inside ed) ed)
    else ed
  else ed.

(** What can happen to an editor between two frames. *)
Inductive event : Type :=
| Ev_Update (speed_factor : Q)
| Ev_mouse_enter
| Ev_mouse_leave
| Ev_Enable
| Ev_Disable
| Ev_Toggle.

Definition handle (ed : cEditor) (ev : event) : cEditor :=
  match ev with
  | Ev_Update speed_factor => Update speed_factor ed
  | Ev_mouse_enter => on_mouse_enter ed
  | Ev_mouse_leave => on_mouse_leave ed
  | Ev_Enable => Enable ed
  | Ev_Disable => Disable ed
  | Ev_Toggle => Toggle ed
  end.

Definition run (evs : list event) (ed : cEditor) : cEditor :=
  foldl handle ed evs.

(** A run of update ticks, one per speed factor. *)
Definition ticks (sfs : list Q) (ed : cEditor) : cEditor :=
  run (Ev_Update <$> sfs) ed.


End Visibility.

(** The panel is counting towards rest: shown, pointer outside, not parked. *)
Definition fading (ed : cEditor) : Prop :=
  m_enabled ed = true /\ m_mouse_inside ed = false /\ m_rested ed = false.

(** *** The XML document of the menu file *)

(** An element node: tag name, attributes, child elements.  Text nodes and
    comments are never selected by the queries of the loader. *)
#[local] Set Warnings "-register-all".
Inductive Element : Type :=
| mkElement (name : string) (attributes : list (string * string)) (children : list Element).

Definition get_name (e : Element) : string :=
  match e with mkElement name _ _ => name end.

Definition get_attributes (e : Element) : list (string * string) :=
  match e with mkElement _ attributes _ => attributes end.

Definition get_children (e : Element) : list Element :=
  match e with mkElement _ _ children => children end.

(** [xmlpp::Element::get_attribute(name)]: [None] is the null pointer
    returned for a missing attribute. *)
Definition get_attribute (name : string) (e : Element) : option string :=
  snd <$> List.find (fun a => String.eqb (fst a) name) (get_attributes e).

(** [p_root->find("item")]: the child elements called [name]. *)
Definition find_children (name : string) (e : Element) : list Element :=
  List.filter (fun c => String.eqb (get_name c) name) (get_children e).

(** [p_node->find("property[@name='...']")]. *)
Definition find_property (pname : string) (e : Element) : list Element :=
  List.filter
    (fun c => String.eqb (get_name c) "property"
              && bool_decide (get_attribute "name" c = Some pname))
    (get_children e).

(** [nodes[0]] on a [std::vector]: undefined when the vector is empty. *)
Definition first_node {A : Type} (nodes : list A) : outcome A :=
  match nodes with
  | [] => Undefined
  | n :: _ => Normal n
  end.

(** [elem->get_attribute("value")->get_value()]: a call through the null
    pointer when the attribute is missing. *)
Definition get_value_attribute (e : Element) : outcome string :=
  match get_attribute "value" e with
  | Some v => Normal v
  | None => Undefined
  end.

(** What the file system holds at the menu file's path. *)
Inductive xml_file : Type :=
| NoXmlFile
| MalformedXml
| XmlDocument (root : Element).

(** [xmlpp::DomParser::parse_file] followed by [get_root_node]: the parser
    throws when the file cannot be read or is not well-formed. *)
Definition parse_file (f : xml_file) : outcome Element :=
  match f with
  | XmlDocument root => Normal root
  | NoXmlFile => Thrown (xmlpp_exception "cannot open file")
  | MalformedXml => Thrown (xmlpp_exception "document not well-formed")
  end.

(** *** Menu definition loader *)

(** The body of the loop of [parse_menu_file] up to the [push_back]. *)
Definition parse_item (p_node : Element) : outcome cEditor_Menu_Entry :=
  name_node ← first_node (find_property "name" p_node);
  name ← get_value_attribute name_node;
  tags_node ← first_node (find_property "tags" p_node);
  tagstr ← get_value_attribute tags_node;
  colorstr ← match find_property "color" p_node with
              | [] => Normal "FFFFFFFF"
              | r :: _ => get_value_attribute r
              end;
  let tags := string_split tagstr ";" in
  let p_entry := new_cEditor_Menu_Entry name in
  let p_entry := Set_Color (Color_of_string colorstr) p_entry in
  let p_entry := Set_Required_Tags tags p_entry in
  let p_entry := Set_Header (bool_decide ("header" ∈ tags)) p_entry in
  Normal p_entry.

Fixpoint parse_items (items : list Element) (ed : cEditor) : cEditor * outcome unit :=
  match items with
  | [] => (ed, Normal tt)
  | p_node :: rest =>
      match parse_item p_node with
      | Normal p_entry =>
          parse_items rest (with_menu_entries (m_menu_entries ed ++ [p_entry]) ed)
      | Thrown e => (ed, Thrown e)
      | Undefined => (ed, Undefined)
      end
  end.

Definition parse_menu_file (files : string -> xml_file) (ed : cEditor) : cEditor * outcome unit :=
  match parse_file (files (m_menu_filename ed)) with
  | Normal p_root => parse_items (find_children "item" p_root) ed
  | Thrown e => (ed, Thrown e)
  | Undefined => (ed, Undefined)
  end.

(** *** Lookup by name *)

(** A [cEditor_Menu_Entry*]: the position of the entry in [m_menu_entries]. *)
Abbreviation entry_ptr := nat (only parsing).

Fixpoint get_menu_entry_from (p : entry_ptr) (entries : list cEditor_Menu_Entry)
    (name : string) : outcome entry_ptr :=
  match entries with
  | [] => Thrown (runtime_error ("Element '" +:+ name +:+ "' not in editor menu list!"))
  | e :: rest =>
      if String.eqb (m_name e) name then Normal p
      else get_menu_entry_from (S p) rest name
  end.

Definition get_menu_entry (ed : cEditor) (name : string) : outcome entry_ptr :=
  get_menu_entry_from 0 (m_menu_entries ed) name.

(** *** Tag matcher *)

(** The inner loop of [find_target_menu_entries_for]: one pass over the
    required tags of the entry at [p]. *)
Fixpoint match_required_tags (requested_tags : list string) (p : entry_ptr)
    (required : list string) (results : list entry_ptr) : list entry_ptr :=
  match required with
  | [] => results
  | tag :: rest =>
      let results :=
        if bool_decide (tag ∈ requested_tags) then
          if bool_decide (p ∈ results) then results else results ++ [p]
        else results in
      match_required_tags requested_tags p rest results
  end.

(** The outer loop, over [m_menu_entries] from position [p] on. *)
Fixpoint match_menu_entries (requested_tags : list string) (p : entry_ptr)
    (entries : list cEditor_Menu_Entry) (results : list entry_ptr) : list entry_ptr :=
  match entries with
  | [] => results
  | e :: rest =>
      match_menu_entries requested_tags (S p) rest
        (match_required_tags requested_tags p (m_required_tags e) results)
  end.

Definition find_target_menu_entries_for (settings : cImage_Settings_Data)
    (ed : cEditor) : list entry_ptr :=
  let requested_tags := string_split (m_editor_tags settings) ";" in
  match_menu_entries requested_tags 0 (m_menu_entries ed) [].

(** *** Asset scanner *)

(** The master-tag test of [Try_Add_Editor_Item]:
    [m_editor_tags.find(m_editor_item_tag) != npos]. *)
Definition has_master_tag (ed : cEditor) (settings : cImage_Settings_Data) : bool :=
  match string_find (m_editor_tags settings) (m_editor_item_tag ed) with
  | Some _ => true
  | None => false
  end.

(** The loop of [Try_Add_Editor_Item] over [target_menu_entries]: one call
    of [Add_Image_Item] on every target, in order. *)
Definition add_to_targets (string_path : string) (settings : cImage_Settings_Data)
    (targets : list entry_ptr) (entries : list cEditor_Menu_Entry) : list cEditor_Menu_Entry :=
  foldl (fun entries p => alter (Add_Image_Item string_path settings) p entries)
        entries targets.

Definition Try_Add_Editor_Item (pixmaps : string -> settings_file)
    (pixmap_path : string) (ed : cEditor) : cEditor * outcome bool :=
  match pixmaps pixmap_path with
  | NoSettingsFile => (ed, Normal false)
  | file =>
      match cImage_Settings_Parser_Get file with
      | Normal p_settings =>
          if negb (has_master_tag ed p_settings) then (ed, Normal false)
          else
            let target_menu_entries := find_target_menu_entries_for p_settings ed in
            (with_menu_entries
               (add_to_targets pixmap_path p_settings target_menu_entries (m_menu_entries ed))
               ed,
             Normal true)
      | Thrown e => (ed, Thrown e)
      | Undefined => (ed, Undefined)
      end
  end.

(** [image_files] is what [Get_Directory_Files] enumerates, already made
    relative to the pixmaps directory. *)
Fixpoint load_image_items (pixmaps : string -> settings_file)
    (image_files : list string) (ed : cEditor) : cEditor * outcome unit :=
  match image_files with
  | [] => (ed, Normal tt)
  | f :: rest =>
      match Try_Add_Editor_Item pixmaps f ed with
      | (ed', Normal _) => load_image_items pixmaps rest ed'
      | (ed', Thrown e) => (ed', Thrown e)
      | (ed', Undefined) => (ed', Undefined)
      end
  end.

(** *** Vocabulary of the specification *)

(** The two tag lists share a tag. *)
Definition tags_intersect (required requested : list string) : Prop :=
  exists tag, tag ∈ required /\ tag ∈ requested.

#[global] Instance tags_intersect_dec required requested :
  Decision (tags_intersect required requested).
Proof.
  refine (cast_if (decide (Exists (fun tag => tag ∈ requested) required)));
    unfold tags_intersect; rewrite Exists_exists in *; naive_solver.
Defined.

(** The asset at [pixmap_path] was placed into the entry at [p] by
    [Try_Add_Editor_Item]: the entry after the call is the entry before it
    with one more image item. *)
Definition placed_into (pixmaps : string -> settings_file) (pixmap_path : string)
    (ed : cEditor) (p : entry_ptr) : Prop :=
  exists e settings,
    m_menu_entries ed !! p = Some e /\
    m_menu_entries (Try_Add_Editor_Item pixmaps pixmap_path ed).1 !! p
      = Some (Add_Image_Item pixmap_path settings e).

(** The entry at position [p] requires one of the requested tags. *)
Definition entry_matches (requested : list string) (entries : list cEditor_Menu_Entry)
    (p : entry_ptr) : Prop :=
  exists e, entries !! p = Some e /\ tags_intersect (m_required_tags e) requested.

#[global] Instance entry_matches_dec requested entries p :
  Decision (entry_matches requested entries p).
Proof.
  unfold entry_matches. destruct (entries !! p) as [e|].
  - destruct (decide (tags_intersect (m_required_tags e) requested)) as [H|H].
    + left. by exists e.
    + right. intros (e' & [= <-] & H'). by apply H.
  - right. by intros (e' & [=] & _).
Defined.

(** [k] placements into one panel, in call order. *)
Definition place_all (items : list (string * cImage_Settings_Data))
    (e : cEditor_Menu_Entry) : cEditor_Menu_Entry :=
  foldl (fun e item => Add_Image_Item item.1 item.2 e) e items.

(** *** Construction and initialisation *)

(** [cEditor::cEditor()] with the two members a subclass sets, followed by
    the part of [Init] that loads the layout: the panel's X position is
    remembered and the panel is hidden.  [layout_x] and [layout_alpha] are
    what editor.layout gives the panel. *)
Definition new_cEditor (menu_filename editor_item_tag : string)
    (layout_x : UDim) (layout_alpha : Q) : cEditor :=
  {| tabpane_visible := false; tabpane_alpha := layout_alpha; tabpane_x := layout_x;
     m_enabled := false; m_rested := false; m_visibility_timer := 0;
     m_mouse_inside := false; m_target_x_position := layout_x;
     m_menu_filename := menu_filename; m_editor_item_tag := editor_item_tag;
     m_menu_entries := [] |}.

(** The rest of [Init]: the menu file, then the image items ([populate_menu]
    only fills a toolkit list box). *)
Definition Init (files : string -> xml_file) (pixmaps : string -> settings_file)
    (image_files : list string) (ed : cEditor) : cEditor * outcome unit :=
  match parse_menu_file files ed with
  | (ed', Normal _) => load_image_items pixmaps image_files ed'
  | failed => failed
  end.

(** ** Sample data *)

Module Sample.

Definition property (name value : string) : Element :=
  mkElement "property" [("name", name); ("value", value)] [].

(** A level menu: two categories and a header line. *)
Definition menu : Element :=
  mkElement "menu" []
    [ mkElement "item" []
        [property "name" "Enemies"; property "tags" "enemy";
         property "color" "FFFF0000"];
      mkElement "item" []
        [property "name" "Ground"; property "tags" "ground;snow"];
      mkElement "item" []
        [property "name" "--- Special ---"; property "tags" "header"] ].

(** A menu whose second item has no name property. *)
Definition menu_without_name : Element :=
  mkElement "menu" []
    [ mkElement "item" []
        [property "name" "Enemies"; property "tags" "enemy"];
      mkElement "item" [] [property "tags" "ground;snow"] ].

(** A menu whose only item has no tags property. *)
Definition menu_without_tags : Element :=
  mkElement "menu" [] [ mkElement "item" [] [property "name" "Ground"] ].

Definition files (path : string) : xml_file :=
  if String.eqb path "editor/level_menu.xml" then XmlDocument menu
  else if String.eqb path "editor/no_name.xml" then XmlDocument menu_without_name
  else if String.eqb path "editor/no_tags.xml" then XmlDocument menu_without_tags
  else if String.eqb path "editor/broken.xml" then MalformedXml
  else NoXmlFile.

Definition stone : cImage_Settings_Data := mkSettings "Stone" "level;ground".
Definition boss : cImage_Settings_Data := mkSettings "Boss" "level;enemy;ground".
Definition globe : cImage_Settings_Data := mkSettings "Globe" "world;enemy".
Definition banner : cImage_Settings_Data := mkSettings "Banner" "level;header".
Definition cellar : cImage_Settings_Data := mkSettings "Cellar" "sublevel".

Definition pixmaps (path : string) : settings_file :=
  if String.eqb path "ground/stone.png" then SettingsFile stone
  else if String.eqb path "enemy/boss.png" then SettingsFile boss
  else if String.eqb path "world/globe.png" then SettingsFile globe
  else if String.eqb path "hud/banner.png" then SettingsFile banner
  else if String.eqb path "ground/cellar.png" then SettingsFile cellar
  else if String.eqb path "enemy/broken.png" then MalformedSettings "unexpected token"
  else NoSettingsFile.

Definition home_x : UDim := mkUDim 0 0.

(** The level editor before [Init] reads the menu. *)
Definition level_editor : cEditor :=
  new_cEditor "editor/level_menu.xml" "level" home_x 1.

(** The level editor with its menu loaded. *)
Definition loaded_editor : cEditor := (parse_menu_file files level_editor).1.

(** An enabled editor, pointer outside, one tick before the timeout at
    32 frames per second. *)
Definition fading_editor : cEditor :=
  with_visibility true false 63 false loaded_editor.

(** A parked editor. *)
Definition rested_editor : cEditor :=
  with_visibility true true 0 false
    (with_tabpane true 1 rest_x_position loaded_editor).

End Sample.

(** ** Further operations and vocabulary *)

(** [cEditor::populate_menu]: the text items handed to the menu list box,
    one per menu entry, with the entry's name and colour. *)
Definition populate_menu (ed : cEditor) : list (string * Color) :=
  (fun e => (m_name e, m_color e)) <$> m_menu_entries ed.

(** The images of a directory that belong into the panel of entry [e]:
    those with a settings file that passes the master-tag test of [ed] and
    shares a tag with the entry, in directory order. *)
Definition items_for (pixmaps : string -> settings_file) (ed : cEditor)
    (e : cEditor_Menu_Entry) (image_files : list string)
    : list (string * cImage_Settings_Data) :=
  omap (fun f =>
          match pixmaps f with
          | SettingsFile settings =>
              if has_master_tag ed settings
              then if decide (tags_intersect (m_required_tags e)
                                (string_split (m_editor_tags settings) ";"))
                   then Some (f, settings) else None
              else None
          | _ => None
          end) image_files.

(** The label and the image window of the [j]-th item of a panel that
    started empty. *)
Definition label_window (j : nat) (item : string * cImage_Settings_Data) : Window :=
  let escaped_path := string_replace_all item.1 "/" "+" in
  {| w_type := "TaharezLook/StaticText";
     w_name := "label-of-" +:+ escaped_path;
     w_text := s_name item.2;
     w_size := (mkUDim 1 0, mkUDim 0 (inject_Z labelheight));
     w_position :=
       (mkUDim 0 0,
        mkUDim 0 (inject_Z (Z.of_nat j * (labelheight + imageheight + yskip))));
     w_properties := [("FrameEnabled", "False")] |}.

Definition image_window (j : nat) (item : string * cImage_Settings_Data) : Window :=
  let escaped_path := string_replace_all item.1 "/" "+" in
  {| w_type := "TaharezLook/StaticImage";
     w_name := "image-of-" +:+ escaped_path;
     w_text := "";
     w_size := (mkUDim 0 (inject_Z imageheight), mkUDim 0 (inject_Z imageheight));
     w_position :=
       (mkUDim (1 # 2) (inject_Z (-24)),
        mkUDim 0 (inject_Z (Z.of_nat j * (labelheight + imageheight + yskip)
                            + labelheight)));
     w_properties := [("Image", escaped_path); ("FrameEnabled", "False")] |}.

(** The value of property [pname] of an item node as the loop body of
    [parse_menu_file] reads it: the [value] attribute of the first property
    element of that name. *)
Definition property_value (pname : string) (p_node : Element) : option string :=
  head (find_property pname p_node) ≫= get_attribute "value".

(** An item node with all the loop body reads: a value for its name and
    for its tags, and a value for its colour when it has a colour
    property. *)
Definition complete_item (p_node : Element) : Prop :=
  is_Some (property_value "name" p_node) /\
  is_Some (property_value "tags" p_node) /\
  (find_property "color" p_node = [] \/ is_Some (property_value "color" p_node)).

(** The descriptor the menu definition gives for an item node: its name,
    its colour (opaque white when it has none), its tags, and the header
    flag when "header" is one of the tags; nothing placed yet. *)
Definition item_descriptor (p_node : Element) : cEditor_Menu_Entry :=
  let name := default "" (property_value "name" p_node) in
  let tagstr := default "" (property_value "tags" p_node) in
  let colorstr := default "FFFFFFFF" (property_value "color" p_node) in
  {| m_name := name; m_color := Color_of_string colorstr;
     m_required_tags := string_split tagstr ";";
     m_is_header := bool_decide ("header" ∈ string_split tagstr ";");
     m_element_y := 0; mp_tab_pane := [] |}.

(** A menu whose only item has a name, tags and a colour property without
    value. *)
Definition menu_without_color_value : Element :=
  mkElement "menu" []
    [ mkElement "item" []
        [Sample.property "name" "Ground"; Sample.property "tags" "ground";
         mkElement "property" [("name", "color")] []] ].

(** The header flag of an entry says whether "header" is among its
    required tags. *)
Definition header_consistent (e : cEditor_Menu_Entry) : Prop :=
  m_is_header e = bool_decide ("header" ∈ m_required_tags e).

(** The running offset of a panel accounts for every window in its pane:
    it is the [int] that adding [labelheight + imageheight + yskip] for
    each pair of a label and an image gives. *)
Definition offset_consistent (e : cEditor_Menu_Entry) : Prop :=
  m_element_y e =
  int_wrap (Z.of_nat (length (mp_tab_pane e)) / 2 *
            (labelheight + imageheight + yskip)).

(** Entry [e'] is entry [e] after some placements: the same descriptor, the
    old windows still first in the pane. *)
Definition grown_from (e e' : cEditor_Menu_Entry) : Prop :=
  m_name e' = m_name e /\ m_color e' = m_color e /\
  m_required_tags e' = m_required_tags e /\ m_is_header e' = m_is_header e /\
  mp_tab_pane e `prefix_of` mp_tab_pane e'.

(** The panel is shown exactly when the editor is enabled. *)
Definition shown_iff_enabled (ed : cEditor) : Prop :=
  tabpane_visible ed = m_enabled ed.

(** A rested panel is parked: opaque, at the offscreen position, with the
    timer cleared and the pointer outside. *)
Definition parked_if_rested (ed : cEditor) : Prop :=
  m_rested ed = true ->
  tabpane_alpha ed = 1%Q /\ tabpane_x ed = rest_x_position /\
  m_visibility_timer ed = 0%Q /\ m_mouse_inside ed = false.

(** The speed factor of an update tick is not negative. *)
Definition speed_nonneg (ev : event) : Prop :=
  match ev with
  | Ev_Update speed_factor => (0 <= speed_factor)%Q
  | _ => True
  end.

(** The timer is not negative and the alpha not above 1. *)
Definition timer_and_alpha_bounded (ed : cEditor) : Prop :=
  (0 <= m_visibility_timer ed)%Q /\ (tabpane_alpha ed <= 1)%Q.

(** ** Lifetime of the owned objects *)

(** The editor together with what exists behind its pointers: whether
    [mp_editor_tabpane] points to a window (or is null), and for every
    element of [m_menu_entries] whether the entry it points to still exists
    (or was deleted). *)
Record cEditor_object : Type := mkObject {
  members : cEditor;
  tabpane_loaded : bool;
  entry_alive : list bool
}.

(** [cEditor::cEditor()]: no window, no entries.  The panel fields of
    [members] mean nothing while [tabpane_loaded] is false. *)
Definition constructed : cEditor_object :=
  mkObject
    (new_cEditor "Needs to be set by subclasses" "Must be set by subclass"
       (mkUDim 0 0) 0)
    false [].

(** The loop of [Unload]: [delete] on every element of [m_menu_entries];
    deleting an entry that was deleted before is undefined. *)
Fixpoint delete_entries (alive : list bool) : outcome (list bool) :=
  match alive with
  | [] => Normal []
  | a :: rest =>
      if a then rest' ← delete_entries rest; Normal (false :: rest')
      else Undefined
  end.

(** [cEditor::Unload], which is also all the destructor does: the entries
    are deleted, the vector keeps its elements, the window is destroyed and
    the pointer to it cleared. *)
Definition Unload (obj : cEditor_object) : outcome cEditor_object :=
  alive ← delete_entries (entry_alive obj);
  Normal (mkObject (members obj) false alive).

(** The first lines of [Init]: a new window is loaded from the layout, its
    X position remembered, and it is hidden. *)
Definition load_layout (layout_x : UDim) (layout_alpha : Q) (ed : cEditor) : cEditor :=
  {| tabpane_visible := false; tabpane_alpha := layout_alpha; tabpane_x := layout_x;
     m_enabled := m_enabled ed; m_rested := m_rested ed;
     m_visibility_timer := m_visibility_timer ed;
     m_mouse_inside := m_mouse_inside ed;
     m_target_x_position := layout_x;
     m_menu_filename := m_menu_filename ed;
     m_editor_item_tag := m_editor_item_tag ed;
     m_menu_entries := m_menu_entries ed |}.

(** [cEditor::Init] on the object: the layout, the menu file (its entries
    are new objects), [populate_menu], which reads the name of every element
    of [m_menu_entries], and the image items. *)
Definition Init_object (layout_x : UDim) (layout_alpha : Q)
    (files : string -> xml_file) (pixmaps : string -> settings_file)
    (image_files : list string) (obj : cEditor_object) : cEditor_object * outcome unit :=
  let ed := load_layout layout_x layout_alpha (members obj) in
  let parsed := parse_menu_file files ed in
  let alive :=
    entry_alive obj ++
    replicate (length (m_menu_entries parsed.1) - length (m_menu_entries ed)) true in
  match parsed.2 with
  | Normal _ =>
      if forallb id alive
      then let scanned := load_image_items pixmaps image_files parsed.1 in
           (mkObject scanned.1 true alive, scanned.2)
      else (mkObject parsed.1 true alive, Undefined)
  | Thrown e => (mkObject parsed.1 true alive, Thrown e)
  | Undefined => (mkObject parsed.1 true alive, Undefined)
  end.

(** [Enable], [Disable] and [Update] on the object: each reaches the window
    through [mp_editor_tabpane] on the paths that show, hide or fade it. *)
Definition Enable_object (obj : cEditor_object) : outcome cEditor_object :=
  if m_enabled (members obj) then Normal obj
  else if tabpane_loaded obj
       then Normal (mkObject (Enable (members obj)) true (entry_alive obj))
       else Undefined.

Definition Disable_object (obj : cEditor_object) : outcome cEditor_object :=
  if negb (m_enabled (members obj)) then Normal obj
  else if tabpane_loaded obj
       then Normal (mkObject (Disable (members obj)) true (entry_alive obj))
       else Undefined.

Definition Update_object (speedfactor_fps speed_factor : Q) (obj : cEditor_object)
    : outcome cEditor_object :=
  let ed := members obj in
  if m_enabled ed && negb (m_mouse_inside ed) && negb (m_rested ed)
  then if tabpane_loaded obj
       then Normal (mkObject (Update speedfactor_fps speed_factor ed) true
                      (entry_alive obj))
       else Undefined
  else Normal obj.

(** * Properties *)

(** ** Scenarios *)

Example string_split_tags :
  string_split "level;enemy;ground" ";" = ["level"; "enemy"; "ground"].
Proof. reflexivity. Qed.

Example string_replace_all_path :
  string_replace_all "ground/green/1.png" "/" "+" = "ground+green+1.png".
Proof. reflexivity. Qed.

Example find_level_in_sublevel : string_find "sublevel" "level" = Some 3.
Proof. reflexivity. Qed.

Example loaded_editor_entries :
  (fun e => (m_name e, m_required_tags e, m_is_header e))
    <$> m_menu_entries Sample.loaded_editor =
  [("Enemies", ["enemy"], false); ("Ground", ["ground"; "snow"], false);
   ("--- Special ---", ["header"], true)].
Proof. reflexivity. Qed.

(** "level;ground" goes to "Ground" only. *)
Example stone_targets :
  find_target_menu_entries_for Sample.stone Sample.loaded_editor = [1].
Proof. reflexivity. Qed.

(** "level;enemy;ground" goes to "Enemies" and to "Ground". *)
Example boss_targets :
  find_target_menu_entries_for Sample.boss Sample.loaded_editor = [0; 1].
Proof. reflexivity. Qed.

(** "world;enemy" is not added by the level editor. *)
Example globe_not_added :
  Try_Add_Editor_Item Sample.pixmaps "world/globe.png" Sample.loaded_editor =
  (Sample.loaded_editor, Normal false).
Proof. reflexivity. Qed.

(** A pixmap without a settings file is skipped. *)
Example no_settings_not_added :
  Try_Add_Editor_Item Sample.pixmaps "ground/plain.png" Sample.loaded_editor =
  (Sample.loaded_editor, Normal false).
Proof. reflexivity. Qed.

Example fade_halfway :
  (tabpane_alpha
     (Update 32 1 (with_visibility true false 31 false Sample.loaded_editor))
   == 1 # 2)%Q.
Proof. reflexivity. Qed.

(** ** Strings *)

Lemma append_String (c : ascii) (s t : string) :
  String c s +:+ t = String c (s +:+ t).
Proof. reflexivity. Qed.

Lemma prefix_app (p s : string) :
  String.prefix p s = true <-> exists post, s = p +:+ post.
Proof.
  revert s. induction p as [|a p IH]; intros [|b s]; simpl.
  - split; [intros _; by exists "" | done].
  - split; [intros _; by exists (String b s) | done].
  - split; [done | intros [post H]; discriminate].
  - destruct (Ascii.ascii_dec a b) as [->|Hne].
    + rewrite IH. split; intros [post H]; exists post.
      * by rewrite H.
      * rewrite append_String in H. by injection H.
    + split; [done | intros [post H]; rewrite append_String in H; congruence].
Qed.

Lemma find_from_unfold (n : nat) (pat s : string) :
  find_from n pat s =
  if String.prefix pat s then Some n
  else match s with
       | EmptyString => None
       | String _ s' => find_from (S n) pat s'
       end.
Proof. by destruct s. Qed.

Lemma find_from_found (n : nat) (pat s : string) :
  find_from n pat s <> None <-> is_substring pat s.
Proof.
  revert n. induction s as [|c s IH]; intros n; rewrite find_from_unfold.
  - destruct (String.prefix pat "") eqn:Hp.
    + split; [intros _ | done].
      apply prefix_app in Hp as [post Hp]. by exists "", post.
    + split; [done | intros (pre & post & H)].
      assert (String.prefix pat "" = true) as Hp'; [|congruence].
      apply prefix_app. destruct pre; [by exists post | discriminate].
  - destruct (String.prefix pat (String c s)) eqn:Hp.
    + split; [intros _ | done].
      apply prefix_app in Hp as [post Hp]. by exists "", post.
    + rewrite IH. split; intros (pre & post & H).
      * exists (String c pre), post. by rewrite H.
      * destruct pre as [|c' pre].
        -- assert (String.prefix pat (String c s) = true) as Hp'; [|congruence].
           apply prefix_app. by exists post.
        -- rewrite append_String in H. injection H as _ H. by exists pre, post.
Qed.

Lemma has_master_tag_substring (ed : cEditor) (settings : cImage_Settings_Data) :
  has_master_tag ed settings = true <->
  is_substring (m_editor_item_tag ed) (m_editor_tags settings).
Proof.
  unfold has_master_tag, string_find. rewrite <- (find_from_found 0).
  destruct (find_from 0 _ _); split; done.
Qed.

Lemma tags_intersect_nil requested : ~ tags_intersect [] requested.
Proof. intros (tag & H & _). by apply elem_of_nil in H. Qed.

Lemma tags_intersect_cons tag rest requested :
  tags_intersect (tag :: rest) requested <->
  tag ∈ requested \/ tags_intersect rest requested.
Proof.
  split.
  - intros (t & [->|Hin]%elem_of_cons & Hreq); [by left | right; by exists t].
  - intros [Hreq | (t & Hin & Hreq)].
    + exists tag. split; [apply elem_of_cons; by left | done].
    + exists t. split; [apply elem_of_cons; by right | done].
Qed.

Lemma match_required_tags_spec requested p required results :
  match_required_tags requested p required results =
  if decide (tags_intersect required requested)
  then if decide (p ∈ results) then results else (results ++ [p])
  else results.
Proof.
  revert results.
  induction required as [|tag rest IH]; intros results; cbn [match_required_tags].
  - destruct (decide (tags_intersect [] requested)) as [H|]; [|done].
    by apply tags_intersect_nil in H.
  - rewrite IH.
    destruct (decide (tags_intersect (tag :: rest) requested)) as [H|H];
      rewrite tags_intersect_cons in H;
      destruct (decide (tags_intersect rest requested)) as [Hr|Hr];
      case_bool_decide as Ht; try tauto;
      repeat case_bool_decide; repeat case_decide; try done.
    exfalso. match goal with H : _ ∉ (_ ++ _) |- _ => apply H end.
    apply elem_of_app. right. by apply list_elem_of_singleton.
Qed.

Lemma match_menu_entries_spec requested pre entries results :
  Forall (fun q => q < length pre) results ->
  match_menu_entries requested (length pre) entries results =
  (results ++ filter (entry_matches requested (pre ++ entries))
                (seq (length pre) (length entries))).
Proof.
  revert pre results.
  induction entries as [|e rest IH]; intros pre results Hlt;
    cbn [match_menu_entries].
  - by rewrite app_nil_r.
  - assert (length (pre ++ [e]) = S (length pre)) as Hlen
      by (rewrite length_app; simpl; lia).
    assert (p_fresh : length pre ∉ results).
    { intros Hin. rewrite Forall_forall in Hlt. apply Hlt in Hin. lia. }
    assert (Hhere : (pre ++ e :: rest) !! length pre = Some e)
      by (by apply list_lookup_middle).
    rewrite <- Hlen, IH, Hlen, match_required_tags_spec.
    + replace ((pre ++ [e]) ++ rest) with (pre ++ e :: rest)
        by (by rewrite <- app_assoc).
      cbn [length seq]. rewrite filter_cons.
      destruct (decide (tags_intersect (m_required_tags e) requested)) as [Hm|Hm].
      * rewrite decide_False by done.
        rewrite decide_True by (by exists e).
        by rewrite <- app_assoc.
      * rewrite decide_False; [done|].
        intros (e' & He' & Hm').
        rewrite Hhere in He'. by injection He' as <-.
    + rewrite Hlen, match_required_tags_spec.
      repeat case_decide; try (eapply Forall_impl; [exact Hlt | simpl; lia]).
      apply Forall_app. split; [eapply Forall_impl; [exact Hlt | simpl; lia]|].
      apply Forall_singleton. lia.
Qed.

Lemma find_target_menu_entries_for_filter settings ed :
  find_target_menu_entries_for settings ed =
  filter (entry_matches (string_split (m_editor_tags settings) ";") (m_menu_entries ed))
         (seq 0 (length (m_menu_entries ed))).
Proof.
  unfold find_target_menu_entries_for.
  apply (match_menu_entries_spec _ [] (m_menu_entries ed) []). constructor.
Qed.

Lemma elem_of_find_target_menu_entries_for settings ed p :
  p ∈ find_target_menu_entries_for settings ed <->
  entry_matches (string_split (m_editor_tags settings) ";") (m_menu_entries ed) p.
Proof.
  rewrite find_target_menu_entries_for_filter, list_elem_of_filter, elem_of_seq.
  split; [tauto|]. intros Hm. split; [done|].
  destruct Hm as (e & He & _). apply lookup_lt_Some in He. lia.
Qed.

Lemma NoDup_find_target_menu_entries_for settings ed :
  NoDup (find_target_menu_entries_for settings ed).
Proof.
  rewrite find_target_menu_entries_for_filter.
  apply NoDup_filter, NoDup_seq.
Qed.

Lemma add_to_targets_lookup string_path settings targets entries p :
  NoDup targets ->
  add_to_targets string_path settings targets entries !! p =
  if decide (p ∈ targets)
  then Add_Image_Item string_path settings <$> entries !! p
  else entries !! p.
Proof.
  unfold add_to_targets. revert entries.
  induction targets as [|q targets IH]; intros entries Hnd; cbn [foldl].
  - rewrite decide_False; [done | apply not_elem_of_nil].
  - apply NoDup_cons in Hnd as [Hq Hnd]. rewrite IH by done.
    destruct (decide (p = q)) as [->|Hne].
    + rewrite decide_False by done.
      rewrite decide_True by (apply elem_of_cons; by left).
      apply list_lookup_alter_eq.
    + rewrite list_lookup_alter_ne by done.
      destruct (decide (p ∈ targets)) as [Hin|Hin].
      * rewrite decide_True; [done | apply elem_of_cons; by right].
      * rewrite decide_False; [done|].
        intros [?|?]%elem_of_cons; done.
Qed.

(** ** Arithmetic on [int] and its conversion to [float] *)

Lemma int_wrap_small z : (- 2 ^ 31 <= z < 2 ^ 31)%Z -> int_wrap z = z.
Proof. intros Hz. unfold int_wrap. rewrite Z.mod_small; lia. Qed.

Lemma int_wrap_range z : (- 2 ^ 31 <= int_wrap z < 2 ^ 31)%Z.
Proof.
  unfold int_wrap. pose proof (Z.mod_pos_bound (z + 2 ^ 31) (2 ^ 32)). lia.
Qed.

Lemma int_wrap_int_wrap z : int_wrap (int_wrap z) = int_wrap z.
Proof. apply int_wrap_small, int_wrap_range. Qed.

Lemma int_wrap_add_l a b : int_wrap (int_wrap a + b) = int_wrap (a + b).
Proof.
  unfold int_wrap.
  replace ((a + 2 ^ 31) mod 2 ^ 32 - 2 ^ 31 + b + 2 ^ 31)%Z
    with ((a + 2 ^ 31) mod 2 ^ 32 + b)%Z by lia.
  rewrite Zplus_mod_idemp_l. f_equal. f_equal. lia.
Qed.

(** Integers below [2 ^ 24] are floats. *)
Lemma float_of_int_small n : (Z.abs n < 2 ^ 24)%Z -> float_of_int n = n.
Proof.
  intros Hn. unfold float_of_int. cbv zeta.
  by destruct (Z.ltb_spec (Z.abs n) (2 ^ 24)) as [_|]; [|lia].
Qed.

(** So are the multiples of 8 below [2 ^ 27]. *)
Lemma float_of_int_exact n :
  (0 <= n < 2 ^ 27)%Z -> (n mod 8 = 0)%Z -> float_of_int n = n.
Proof.
  intros Hn H8. unfold float_of_int. rewrite Z.abs_eq by lia.
  destruct (Z.ltb_spec n (2 ^ 24)) as [|Hbig]; [done|].
  assert (24 <= Z.log2 n < 27)%Z as Hlog.
  { split.
    - apply (Z.log2_le_pow2 n 24); lia.
    - apply Z.log2_lt_pow2; lia. }
  set (ulp := (2 ^ (Z.log2 n - 23))%Z).
  assert (0 < ulp)%Z as Hpos by (apply Z.pow_pos_nonneg; lia).
  assert (n mod ulp = 0)%Z as Hr.
  { apply Z.mod_divide; [lia|].
    apply (Z.divide_trans _ 8); [|apply Z.mod_divide; [lia | done]].
    exists (2 ^ (26 - Z.log2 n))%Z. unfold ulp.
    rewrite <- Z.pow_add_r by lia.
    by replace (26 - Z.log2 n + (Z.log2 n - 23))%Z with 3%Z by lia. }
  cbv zeta. rewrite Hr.
  destruct (Z.ltb_spec (2 * 0) ulp) as [_|]; [|lia].
  rewrite Z.sgn_pos, Z.mul_1_l by lia.
  symmetry. rewrite Z.mul_comm. by apply Z_div_exact_full_2; [lia|].
Qed.

(** ** Asset scanner *)

Lemma Add_Image_Item_changes string_path settings e :
  Add_Image_Item string_path settings e <> e.
Proof.
  intros H. apply (f_equal (fun e => length (mp_tab_pane e))) in H.
  simpl in H. rewrite length_app in H. simpl in H. lia.
Qed.

Lemma Try_Add_Editor_Item_with_settings pixmaps pixmap_path ed settings :
  pixmaps pixmap_path = SettingsFile settings ->
  Try_Add_Editor_Item pixmaps pixmap_path ed =
  if has_master_tag ed settings
  then (with_menu_entries
          (add_to_targets pixmap_path settings
             (find_target_menu_entries_for settings ed) (m_menu_entries ed)) ed,
        Normal true)
  else (ed, Normal false).
Proof.
  intros Hfile. unfold Try_Add_Editor_Item. rewrite Hfile. simpl.
  by destruct (has_master_tag ed settings).
Qed.

Lemma Try_Add_Editor_Item_without_settings pixmaps pixmap_path ed :
  (forall settings, pixmaps pixmap_path <> SettingsFile settings) ->
  (Try_Add_Editor_Item pixmaps pixmap_path ed).1 = ed.
Proof.
  intros Hfile. unfold Try_Add_Editor_Item.
  destruct (pixmaps pixmap_path) as [|why|settings]; simpl; try done.
  by destruct (Hfile settings).
Qed.

(** The entries after one call of [Try_Add_Editor_Item] on an asset with a
    settings file. *)
Lemma Try_Add_Editor_Item_lookup pixmaps pixmap_path ed settings p e :
  pixmaps pixmap_path = SettingsFile settings ->
  m_menu_entries ed !! p = Some e ->
  m_menu_entries (Try_Add_Editor_Item pixmaps pixmap_path ed).1 !! p =
  Some (if decide (has_master_tag ed settings = true /\
                   tags_intersect (m_required_tags e)
                     (string_split (m_editor_tags settings) ";"))
        then Add_Image_Item pixmap_path settings e
        else e).
Proof.
  intros Hfile He. rewrite (Try_Add_Editor_Item_with_settings _ _ _ _ Hfile).
  destruct (decide _) as [[Hmaster Hm]|Hno].
  - rewrite Hmaster. cbn [fst with_menu_entries m_menu_entries].
    rewrite add_to_targets_lookup by apply NoDup_find_target_menu_entries_for.
    rewrite decide_True, He; [done|].
    apply elem_of_find_target_menu_entries_for. by exists e.
  - destruct (has_master_tag ed settings) eqn:Hmaster;
      cbn [fst with_menu_entries m_menu_entries]; [|done].
    rewrite add_to_targets_lookup by apply NoDup_find_target_menu_entries_for.
    rewrite decide_False; [done|].
    rewrite elem_of_find_target_menu_entries_for. intros (e' & He' & Hm).
    pose proof (eq_trans (eq_sym He) He') as [= <-]. by apply Hno.
Qed.

(** C1 (as amended): an asset is placed into the panel of an entry exactly
    when the asset has a settings file, the entry's required tags and the
    asset's tags share a tag, and the master tag occurs in the asset's tag
    string; the header flag of the entry plays no part. *)
Theorem placed_iff_tags_intersect_and_master_tag pixmaps pixmap_path ed p :
  placed_into pixmaps pixmap_path ed p <->
  exists settings e,
    pixmaps pixmap_path = SettingsFile settings /\
    m_menu_entries ed !! p = Some e /\
    tags_intersect (m_required_tags e) (string_split (m_editor_tags settings) ";") /\
    is_substring (m_editor_item_tag ed) (m_editor_tags settings).
Proof.
  unfold placed_into. split.
  - intros (e & settings' & He & Hpost).
    destruct (pixmaps pixmap_path) as [|why|settings] eqn:Hfile.
    + rewrite Try_Add_Editor_Item_without_settings in Hpost
        by (intros s; by rewrite Hfile).
      pose proof (eq_trans (eq_sym He) Hpost) as [= Hsame].
      by destruct (Add_Image_Item_changes pixmap_path settings' e).
    + rewrite Try_Add_Editor_Item_without_settings in Hpost
        by (intros s; by rewrite Hfile).
      pose proof (eq_trans (eq_sym He) Hpost) as [= Hsame].
      by destruct (Add_Image_Item_changes pixmap_path settings' e).
    + rewrite (Try_Add_Editor_Item_lookup _ _ _ settings p e Hfile He) in Hpost.
      injection Hpost as Hpost.
      destruct (decide _) as [[Hmaster Hm]|_] in Hpost.
      * exists settings, e. by rewrite <- has_master_tag_substring.
      * by destruct (Add_Image_Item_changes pixmap_path settings' e).
  - intros (settings & e & Hfile & He & Hm & Hmaster).
    exists e, settings. split; [done|].
    rewrite (Try_Add_Editor_Item_lookup _ _ _ settings p e Hfile He).
    rewrite decide_True; [done|]. by rewrite has_master_tag_substring.
Qed.

(** C1 (as stated) fails: the header entry of the sample menu receives the
    image tagged "level;header". *)
Lemma header_entry_receives_item :
  exists e,
    m_menu_entries Sample.loaded_editor !! 2 = Some e /\
    m_is_header e = true /\
    placed_into Sample.pixmaps "hud/banner.png" Sample.loaded_editor 2 /\
    ~ (placed_into Sample.pixmaps "hud/banner.png" Sample.loaded_editor 2 <->
       tags_intersect (m_required_tags e)
         (string_split (m_editor_tags Sample.banner) ";") /\
       is_substring (m_editor_item_tag Sample.loaded_editor)
         (m_editor_tags Sample.banner) /\
       m_is_header e = false).
Proof.
  eexists. split; [reflexivity|].
  assert (placed_into Sample.pixmaps "hud/banner.png" Sample.loaded_editor 2) as Hplaced.
  { eexists _, Sample.banner. split; [reflexivity|]. vm_compute. reflexivity. }
  split; [reflexivity|]. split; [exact Hplaced|].
  intros Hiff. apply Hiff in Hplaced as (_ & _ & Hheader). discriminate.
Qed.

(** C2: the tag matcher returns the positions of the entries whose required
    tags meet the asset's tags, each once and in the order of
    [m_menu_entries], however many tags are shared; an asset that passes the
    master-tag test is then placed once into each of these panels: the pane
    of such a panel is the pane it had, followed by one label and one image
    window for the asset and nothing else, and its offset has advanced by
    one item.  The other panels are left as they were. *)
Theorem find_target_menu_entries_for_each_once settings ed :
  let requested := string_split (m_editor_tags settings) ";" in
  find_target_menu_entries_for settings ed =
    filter (entry_matches requested (m_menu_entries ed))
           (seq 0 (length (m_menu_entries ed))) /\
  NoDup (find_target_menu_entries_for settings ed) /\
  forall pixmaps pixmap_path p e,
    pixmaps pixmap_path = SettingsFile settings ->
    has_master_tag ed settings = true ->
    m_menu_entries ed !! p = Some e ->
    m_menu_entries (Try_Add_Editor_Item pixmaps pixmap_path ed).1 !! p =
    Some (if decide (tags_intersect (m_required_tags e) requested)
          then Add_Image_Item pixmap_path settings e
          else e) /\
    exists e',
      m_menu_entries (Try_Add_Editor_Item pixmaps pixmap_path ed).1 !! p = Some e' /\
      if decide (tags_intersect (m_required_tags e) requested)
      then
        let escaped_path := string_replace_all pixmap_path "/" "+" in
        exists p_label p_image,
          mp_tab_pane e' = mp_tab_pane e ++ [p_label; p_image] /\
          w_type p_label = "TaharezLook/StaticText" /\
          w_name p_label = "label-of-" +:+ escaped_path /\
          w_text p_label = s_name settings /\
          w_position p_label = (mkUDim 0 0, UDim_int 0 (m_element_y e)) /\
          w_type p_image = "TaharezLook/StaticImage" /\
          w_name p_image = "image-of-" +:+ escaped_path /\
          w_properties p_image = [("Image", escaped_path); ("FrameEnabled", "False")] /\
          w_position p_image =
            (mkUDim (1 # 2) (-24), UDim_int 0 (int_add (m_element_y e) labelheight)) /\
          m_element_y e' = int_add (m_element_y e) (labelheight + imageheight + yskip) /\
          m_name e' = m_name e /\ m_color e' = m_color e /\
          m_required_tags e' = m_required_tags e /\ m_is_header e' = m_is_header e
      else e' = e.
Proof.
  intros requested. split; [apply find_target_menu_entries_for_filter|].
  split; [apply NoDup_find_target_menu_entries_for|].
  intros pixmaps pixmap_path p e Hfile Hmaster He.
  assert (m_menu_entries (Try_Add_Editor_Item pixmaps pixmap_path ed).1 !! p =
          Some (if decide (tags_intersect (m_required_tags e) requested)
                then Add_Image_Item pixmap_path settings e
                else e)) as Hlookup.
  { rewrite (Try_Add_Editor_Item_lookup _ _ _ settings p e Hfile He).
    f_equal. fold requested.
    destruct (decide (tags_intersect (m_required_tags e) requested)) as [Hm|Hm].
    - by rewrite decide_True.
    - rewrite decide_False; [done | by intros [_ ?]]. }
  split; [exact Hlookup|].
  eexists. split; [exact Hlookup|].
  destruct (decide (tags_intersect (m_required_tags e) requested)) as [Hm|Hm]; [|done].
  intros escaped_path. eexists _, _.
  split; [reflexivity|]. repeat split.
Qed.

Lemma find_target_menu_entries_for_each_once_witness :
  find_target_menu_entries_for Sample.boss Sample.loaded_editor = [0; 1] /\
  exists e,
    m_menu_entries
      (Try_Add_Editor_Item Sample.pixmaps "enemy/boss.png" Sample.loaded_editor).1 !! 1
    = Some e /\
    w_name <$> mp_tab_pane e = ["label-of-enemy+boss.png"; "image-of-enemy+boss.png"].
Proof.
  split; [reflexivity|].
  destruct (find_target_menu_entries_for_each_once Sample.boss Sample.loaded_editor)
    as (_ & _ & Hplace).
  destruct (Hplace Sample.pixmaps "enemy/boss.png" 1 _ eq_refl eq_refl eq_refl)
    as (_ & e' & He' & Hplaced).
  exists e'. split; [exact He'|].
  rewrite decide_True in Hplaced.
  - destruct Hplaced as (p_label & p_image & Hpane & _ & Hlabel & _ & _ & _ & Himage & _).
    rewrite Hpane, fmap_app. cbn [fmap list_fmap]. rewrite Hlabel, Himage.
    reflexivity.
  - exists "ground". split.
    + change ("ground" ∈ ["ground"; "snow"]). apply elem_of_cons. by left.
    + change ("ground" ∈ ["level"; "enemy"; "ground"]).
      do 2 (apply elem_of_cons; right). apply elem_of_cons. by left.
Defined.

(** C10: the master-tag test succeeds exactly when the master tag occurs as
    a substring of the raw tag string; the asset tagged "sublevel" passes
    the test of the level editor although "level" is not one of its tags. *)
Theorem master_tag_test_is_substring_search :
  (forall pixmaps pixmap_path ed settings,
     pixmaps pixmap_path = SettingsFile settings ->
     (snd (Try_Add_Editor_Item pixmaps pixmap_path ed) = Normal true <->
      is_substring (m_editor_item_tag ed) (m_editor_tags settings))) /\
  (m_editor_item_tag Sample.loaded_editor = "level" /\
   string_split (m_editor_tags Sample.cellar) ";" = ["sublevel"] /\
   ("level" ∉ string_split (m_editor_tags Sample.cellar) ";") /\
   snd (Try_Add_Editor_Item Sample.pixmaps "ground/cellar.png" Sample.loaded_editor)
     = Normal true).
Proof.
  split.
  - intros pixmaps pixmap_path ed settings Hfile.
    rewrite (Try_Add_Editor_Item_with_settings _ _ _ _ Hfile).
    rewrite <- has_master_tag_substring.
    destruct (has_master_tag ed settings); simpl; split; congruence.
  - repeat split; try reflexivity.
    intros Hin. apply list_elem_of_singleton in Hin. discriminate.
Qed.

Lemma master_tag_test_is_substring_search_witness :
  snd (Try_Add_Editor_Item Sample.pixmaps "world/globe.png" Sample.loaded_editor)
    <> Normal true /\
  ~ is_substring "level" "world;enemy".
Proof.
  assert (~ is_substring "level" "world;enemy") as Hnot.
  { intros H. apply (find_from_found 0) in H. by apply H. }
  split; [|exact Hnot].
  intros H.
  apply (proj1 master_tag_test_is_substring_search Sample.pixmaps "world/globe.png"
           Sample.loaded_editor Sample.globe eq_refl) in H.
  by apply Hnot.
Defined.

(** ** Category panel *)

Lemma m_element_y_Add_Image_Item string_path settings e :
  m_element_y (Add_Image_Item string_path settings e) =
  int_add (m_element_y e) (labelheight + imageheight + yskip).
Proof. reflexivity. Qed.

(** The offset after a series of placements is the sum, wrapped once (the
    offset before them being a value of [int]). *)
Lemma m_element_y_place_all items e :
  int_wrap (m_element_y e) = m_element_y e ->
  m_element_y (place_all items e) =
  int_wrap (m_element_y e +
            Z.of_nat (length items) * (labelheight + imageheight + yskip)).
Proof.
  unfold place_all. revert e.
  induction items as [|item items IH]; intros e He.
  - cbn [foldl length]. by rewrite Z.mul_0_l, Z.add_0_r, He.
  - cbn [foldl length]. rewrite IH, m_element_y_Add_Image_Item; unfold int_add.
    + rewrite int_wrap_add_l. f_equal. lia.
    + apply int_wrap_int_wrap.
Qed.

(** Each placement appends a label and an image to the pane. *)
Lemma mp_tab_pane_place_all items e :
  length (mp_tab_pane (place_all items e)) =
  length (mp_tab_pane e) + 2 * length items.
Proof.
  unfold place_all. revert e.
  induction items as [|item items IH]; intros e; cbn [foldl length].
  - lia.
  - rewrite IH. simpl. rewrite length_app. simpl. lia.
Qed.

Lemma m_element_y_fresh_panel name items :
  m_element_y (place_all items (new_cEditor_Menu_Entry name)) =
  int_wrap (Z.of_nat (length items) * (labelheight + imageheight + yskip)).
Proof. by rewrite m_element_y_place_all. Qed.

(** Up to 22369621 placements the sum is a value of a 32-bit [int]. *)
Lemma m_element_y_fits_int name items :
  (Z.of_nat (length items) <= 22369621)%Z ->
  m_element_y (place_all items (new_cEditor_Menu_Entry name)) =
  (Z.of_nat (length items) * (labelheight + imageheight + yskip))%Z.
Proof.
  intros Hk. rewrite m_element_y_fresh_panel. apply int_wrap_small.
  unfold labelheight, imageheight, yskip. lia.
Qed.

(** C3 (amended): the running vertical offset of a panel starts at 0 and is
    left alone by every operation on the entry but a placement; a placement
    adds [labelheight + imageheight + yskip] to it in 32-bit [int]
    arithmetic.  After [k] placements it is [k] times that constant wrapped
    to 32 bits, which is [k] times the constant as long as [k] is at most
    22369621, the largest [k] whose product still is a value of [int]. *)
Theorem element_y_after_k_placements name items :
  m_element_y (new_cEditor_Menu_Entry name) = 0%Z /\
  (forall string_path settings e,
     m_element_y (Add_Image_Item string_path settings e) =
     int_add (m_element_y e) (labelheight + imageheight + yskip) /\
     ((- 2 ^ 31 <= m_element_y e + (labelheight + imageheight + yskip) < 2 ^ 31)%Z ->
      m_element_y (Add_Image_Item string_path settings e) =
      (m_element_y e + (labelheight + imageheight + yskip))%Z)) /\
  (forall color tags is_header e,
     m_element_y (Set_Color color e) = m_element_y e /\
     m_element_y (Set_Required_Tags tags e) = m_element_y e /\
     m_element_y (Set_Header is_header e) = m_element_y e) /\
  m_element_y (place_all items (new_cEditor_Menu_Entry name)) =
    int_wrap (Z.of_nat (length items) * (labelheight + imageheight + yskip)) /\
  ((Z.of_nat (length items) <= 22369621)%Z ->
   m_element_y (place_all items (new_cEditor_Menu_Entry name)) =
   (Z.of_nat (length items) * (labelheight + imageheight + yskip))%Z).
Proof.
  split; [reflexivity|]. split.
  { intros string_path settings e. split; [reflexivity|].
    intros Hfits. rewrite m_element_y_Add_Image_Item. by apply int_wrap_small. }
  split; [done|].
  split; [apply m_element_y_fresh_panel | apply m_element_y_fits_int].
Qed.

Lemma element_y_after_k_placements_witness :
  m_element_y
    (Add_Image_Item "ground/stone.png" Sample.stone (new_cEditor_Menu_Entry "Ground"))
    = 96%Z /\
  m_element_y
    (place_all [("ground/stone.png", Sample.stone); ("enemy/boss.png", Sample.boss)]
       (new_cEditor_Menu_Entry "Ground")) = 192%Z.
Proof.
  destruct (element_y_after_k_placements "Ground"
              [("ground/stone.png", Sample.stone); ("enemy/boss.png", Sample.boss)])
    as (_ & Hstep & _ & _ & Hexact).
  split.
  - destruct (Hstep "ground/stone.png" Sample.stone (new_cEditor_Menu_Entry "Ground"))
      as [_ Hfits].
    rewrite Hfits; [reflexivity|].
    unfold labelheight, imageheight, yskip. cbn [m_element_y new_cEditor_Menu_Entry].
    lia.
  - rewrite Hexact; [reflexivity | simpl; lia].
Defined.

(** C3 (as stated) fails: after 22369622 placements the offset of a fresh
    panel is -2147483584, not 22369622 * 96 = 2147483712, which is beyond
    the largest [int]. *)
Lemma element_y_wraps_after_22369622_placements :
  let items := replicate (Z.to_nat 22369622) ("ground/stone.png", Sample.stone) in
  Z.of_nat (length items) = 22369622%Z /\
  m_element_y (place_all items (new_cEditor_Menu_Entry "Ground")) = (-2147483584)%Z /\
  m_element_y (place_all items (new_cEditor_Menu_Entry "Ground")) <>
    (Z.of_nat (length items) * (labelheight + imageheight + yskip))%Z.
Proof.
  intros items.
  assert (Z.of_nat (length items) = 22369622%Z) as Hlen.
  { unfold items. rewrite length_replicate. apply Z2Nat.id. lia. }
  split; [exact Hlen|].
  rewrite m_element_y_fresh_panel, Hlen. split; [reflexivity | discriminate].
Qed.

(** ** Lookup by name *)

Lemma get_menu_entry_from_missing p entries name :
  name ∉ (m_name <$> entries) ->
  get_menu_entry_from p entries name =
  Thrown (runtime_error ("Element '" +:+ name +:+ "' not in editor menu list!")).
Proof.
  revert p. induction entries as [|e rest IH]; intros p Hnot; simpl; [done|].
  rewrite fmap_cons in Hnot. apply not_elem_of_cons in Hnot as [Hne Hnot].
  destruct (String.eqb_spec (m_name e) name) as [Heq|_]; [congruence|].
  by apply IH.
Qed.

Lemma get_menu_entry_from_present p entries name :
  name ∈ (m_name <$> entries) ->
  exists i e,
    get_menu_entry_from p entries name = Normal (p + i) /\
    entries !! i = Some e /\ m_name e = name /\
    forall j e', j < i -> entries !! j = Some e' -> m_name e' <> name.
Proof.
  revert p. induction entries as [|e rest IH]; intros p Hin; simpl.
  - by apply elem_of_nil in Hin.
  - destruct (String.eqb_spec (m_name e) name) as [Heq|Hne].
    + exists 0, e. rewrite Nat.add_0_r. repeat split; try done. lia.
    + rewrite fmap_cons in Hin. apply elem_of_cons in Hin as [Heq|Hin]; [congruence|].
      destruct (IH (S p) Hin) as (i & e0 & Hget & He0 & Hname & Hfirst).
      exists (S i), e0. rewrite Hget. repeat split; try done.
      * f_equal. lia.
      * intros [|j] e' Hlt He'; simpl in He'.
        -- by injection He' as <-.
        -- apply (Hfirst j e'); [lia | done].
Qed.

(** C9: looking up a name that no entry carries throws the
    [std::runtime_error]; looking up a name that is present returns the
    first entry with that name. *)
Theorem get_menu_entry_found_or_thrown ed name :
  (name ∉ (m_name <$> m_menu_entries ed) ->
   get_menu_entry ed name =
   Thrown (runtime_error ("Element '" +:+ name +:+ "' not in editor menu list!"))) /\
  (name ∈ (m_name <$> m_menu_entries ed) ->
   exists p e,
     get_menu_entry ed name = Normal p /\
     m_menu_entries ed !! p = Some e /\ m_name e = name /\
     forall q e', q < p -> m_menu_entries ed !! q = Some e' -> m_name e' <> name).
Proof.
  unfold get_menu_entry. split.
  - apply get_menu_entry_from_missing.
  - intros Hin. destruct (get_menu_entry_from_present 0 _ _ Hin) as (i & e & H).
    by exists i, e.
Qed.

Lemma get_menu_entry_found_or_thrown_witness :
  get_menu_entry Sample.loaded_editor "Water" =
    Thrown (runtime_error "Element 'Water' not in editor menu list!") /\
  exists p e,
    get_menu_entry Sample.loaded_editor "Ground" = Normal p /\
    m_menu_entries Sample.loaded_editor !! p = Some e /\ m_name e = "Ground".
Proof.
  destruct (get_menu_entry_found_or_thrown Sample.loaded_editor "Water") as [Hmissing _].
  destruct (get_menu_entry_found_or_thrown Sample.loaded_editor "Ground") as [_ Hpresent].
  split.
  - apply Hmissing. vm_compute. intros H.
    repeat (apply elem_of_cons in H as [H|H]; [discriminate|]).
    by apply elem_of_nil in H.
  - destruct Hpresent as (p & e & Hget & He & Hname & _).
    + vm_compute. apply elem_of_cons. right. apply elem_of_cons. by left.
    + by exists p, e.
Defined.

(** ** Directory scan *)

Lemma Try_Add_Editor_Item_returns pixmaps pixmap_path ed :
  (forall why, pixmaps pixmap_path <> MalformedSettings why) ->
  exists added, snd (Try_Add_Editor_Item pixmaps pixmap_path ed) = Normal added.
Proof.
  intros Hfile. unfold Try_Add_Editor_Item.
  destruct (pixmaps pixmap_path) as [|why|settings]; simpl.
  - by exists false.
  - by destruct (Hfile why).
  - destruct (has_master_tag ed settings); simpl; eauto.
Qed.

Lemma load_image_items_app pixmaps pre post ed :
  load_image_items pixmaps (pre ++ post) ed =
  match load_image_items pixmaps pre ed with
  | (ed', Normal _) => load_image_items pixmaps post ed'
  | stopped => stopped
  end.
Proof.
  revert ed. induction pre as [|f pre IH]; intros ed; simpl; [done|].
  destruct (Try_Add_Editor_Item pixmaps f ed) as [ed' [added|e|]]; [apply IH|done..].
Qed.

Lemma load_image_items_completes pixmaps image_files ed :
  (forall f why, f ∈ image_files -> pixmaps f <> MalformedSettings why) ->
  snd (load_image_items pixmaps image_files ed) = Normal tt.
Proof.
  revert ed. induction image_files as [|f rest IH]; intros ed Hfiles; simpl; [done|].
  destruct (Try_Add_Editor_Item_returns pixmaps f ed) as [added Hadded].
  { intros why. apply Hfiles. by left. }
  destruct (Try_Add_Editor_Item pixmaps f ed) as [ed' out]. simpl in Hadded.
  rewrite Hadded. apply IH. intros f' why Hin. apply Hfiles. by right.
Qed.

(** ** Menu definition loader *)

Lemma with_menu_entries_same ed : with_menu_entries (m_menu_entries ed) ed = ed.
Proof. by destruct ed. Qed.

(** The loop body never throws: it completes or runs into undefined
    behaviour. *)
Lemma parse_item_not_thrown p_node e : parse_item p_node <> Thrown e.
Proof.
  unfold parse_item, get_value_attribute.
  destruct (find_property "name" p_node) as [|name_node ?]; [done|]. simpl.
  destruct (get_attribute "value" name_node) as [name|]; [|done]. simpl.
  destruct (find_property "tags" p_node) as [|tags_node ?]; [done|]. simpl.
  destruct (get_attribute "value" tags_node) as [tagstr|]; [|done]. simpl.
  destruct (find_property "color" p_node) as [|r ?]; [done|].
  by destruct (get_attribute "value" r).
Qed.

Lemma parse_item_missing_property p_node :
  find_property "name" p_node = [] \/ find_property "tags" p_node = [] ->
  parse_item p_node = Undefined.
Proof.
  intros [Hname|Htags]; unfold parse_item, get_value_attribute.
  - by rewrite Hname.
  - destruct (find_property "name" p_node) as [|name_node ?]; [done|]. simpl.
    destruct (get_attribute "value" name_node) as [name|]; [|done]. simpl.
    by rewrite Htags.
Qed.

(** What a completed loop body returns. *)
Lemma parse_item_descriptor p_node p_entry :
  parse_item p_node = Normal p_entry ->
  exists name_node tags_node name tagstr,
    head (find_property "name" p_node) = Some name_node /\
    get_attribute "value" name_node = Some name /\
    head (find_property "tags" p_node) = Some tags_node /\
    get_attribute "value" tags_node = Some tagstr /\
    m_name p_entry = name /\
    m_required_tags p_entry = string_split tagstr ";" /\
    m_is_header p_entry = bool_decide ("header" ∈ string_split tagstr ";") /\
    m_element_y p_entry = 0%Z /\ mp_tab_pane p_entry = [].
Proof.
  unfold parse_item, get_value_attribute.
  destruct (find_property "name" p_node) as [|name_node ?]; [done|]. simpl.
  destruct (get_attribute "value" name_node) as [name|] eqn:Hname; [|done]. simpl.
  destruct (find_property "tags" p_node) as [|tags_node ?]; [done|]. simpl.
  destruct (get_attribute "value" tags_node) as [tagstr|] eqn:Htags; [|done]. simpl.
  intros Hentry. exists name_node, tags_node, name, tagstr.
  destruct (find_property "color" p_node) as [|r ?].
  - simpl in Hentry. injection Hentry as <-. by repeat split.
  - destruct (get_attribute "value" r); [|done].
    simpl in Hentry. injection Hentry as <-. by repeat split.
Qed.

Lemma parse_items_complete items descriptors ed :
  Forall2 (fun p_node p_entry => parse_item p_node = Normal p_entry) items descriptors ->
  parse_items items ed =
  (with_menu_entries (m_menu_entries ed ++ descriptors) ed, Normal tt).
Proof.
  intros Hall. revert ed.
  induction Hall as [|p_node p_entry items descriptors Hitem Hall IH]; intros ed; simpl.
  - by rewrite app_nil_r, with_menu_entries_same.
  - rewrite Hitem, IH. simpl. by rewrite <- app_assoc.
Qed.

Lemma parse_items_undefined pre p_node post descriptors ed :
  Forall2 (fun p_node p_entry => parse_item p_node = Normal p_entry) pre descriptors ->
  parse_item p_node = Undefined ->
  parse_items (pre ++ p_node :: post) ed =
  (with_menu_entries (m_menu_entries ed ++ descriptors) ed, Undefined).
Proof.
  intros Hall Hnode. revert ed.
  induction Hall as [|n d pre descriptors Hitem Hall IH]; intros ed; simpl.
  - by rewrite Hnode, app_nil_r, with_menu_entries_same.
  - rewrite Hitem, IH. simpl. by rewrite <- app_assoc.
Qed.

Lemma parse_items_not_thrown items ed e : snd (parse_items items ed) <> Thrown e.
Proof.
  revert ed. induction items as [|p_node rest IH]; intros ed; simpl; [done|].
  destruct (parse_item p_node) as [p_entry|e'|] eqn:Hitem; simpl.
  - apply IH.
  - by destruct (parse_item_not_thrown p_node e').
  - done.
Qed.

Lemma parse_item_complete p_node :
  complete_item p_node -> parse_item p_node = Normal (item_descriptor p_node).
Proof.
  unfold complete_item, item_descriptor, property_value, parse_item,
    get_value_attribute.
  intros ([name Hname] & [tagstr Htags] & Hcolor).
  destruct (find_property "name" p_node) as [|name_node ?]; [discriminate|].
  simpl in Hname. simpl. rewrite Hname. simpl.
  destruct (find_property "tags" p_node) as [|tags_node ?]; [discriminate|].
  simpl in Htags. simpl. rewrite Htags. simpl.
  destruct (find_property "color" p_node) as [|r ?]; [done|].
  destruct Hcolor as [|[colorstr Hcolor]]; [done|].
  simpl in Hcolor. simpl. by rewrite Hcolor.
Qed.

Lemma parse_item_incomplete p_node :
  ~ complete_item p_node -> parse_item p_node = Undefined.
Proof.
  unfold complete_item, property_value, parse_item, get_value_attribute.
  intros Hnot.
  destruct (find_property "name" p_node) as [|name_node ?]; [done|].
  simpl in Hnot. simpl.
  destruct (get_attribute "value" name_node) as [name|]; [|done].
  destruct (find_property "tags" p_node) as [|tags_node ?]; [done|].
  simpl in Hnot. simpl.
  destruct (get_attribute "value" tags_node) as [tagstr|]; [|done].
  destruct (find_property "color" p_node) as [|r ?].
  { destruct Hnot. repeat split; eauto. }
  simpl in Hnot. simpl.
  destruct (get_attribute "value" r) as [colorstr|]; [|done].
  destruct Hnot. repeat split; eauto.
Qed.

Lemma missing_property_incomplete p_node :
  find_property "name" p_node = [] \/ find_property "tags" p_node = [] ->
  ~ complete_item p_node.
Proof.
  unfold complete_item, property_value.
  intros [Hmissing|Hmissing] ([? Hname] & [? Htags] & _);
    rewrite Hmissing in *; discriminate.
Qed.

Lemma parse_items_descriptors items :
  Forall complete_item items ->
  Forall2 (fun p_node p_entry => parse_item p_node = Normal p_entry)
    items (item_descriptor <$> items).
Proof.
  induction 1 as [|p_node items Hitem _ IH]; constructor; [|done].
  by apply parse_item_complete.
Qed.

(** C8 (as amended): parsing the menu file ends with the XML parser's
    exception, and no descriptor, when the file is absent or not
    well-formed.  On a well-formed document the loader itself raises no
    error.  When every item has a value for its name and its tags, and for
    its colour if it has a colour property, the loader appends the
    descriptor of every item, in document order.  At the first item that
    lacks one of these (so at an item without a name or tags property) it
    runs into undefined behaviour, having appended the descriptors of the
    items before it and none for that item. *)
Theorem parse_menu_file_outcomes files ed :
  (files (m_menu_filename ed) = NoXmlFile \/ files (m_menu_filename ed) = MalformedXml ->
   exists e, parse_menu_file files ed = (ed, Thrown e)) /\
  (forall p_root,
     files (m_menu_filename ed) = XmlDocument p_root ->
     (forall e, snd (parse_menu_file files ed) <> Thrown e) /\
     (Forall complete_item (find_children "item" p_root) ->
      parse_menu_file files ed =
      (with_menu_entries
         (m_menu_entries ed ++ (item_descriptor <$> find_children "item" p_root)) ed,
       Normal tt)) /\
     (forall pre p_node post,
        find_children "item" p_root = pre ++ p_node :: post ->
        Forall complete_item pre ->
        ~ complete_item p_node ->
        parse_menu_file files ed =
        (with_menu_entries (m_menu_entries ed ++ (item_descriptor <$> pre)) ed,
         Undefined))) /\
  (forall p_node,
     find_property "name" p_node = [] \/ find_property "tags" p_node = [] ->
     ~ complete_item p_node).
Proof.
  unfold parse_menu_file. split; [|split].
  - intros [Hfile|Hfile]; rewrite Hfile; simpl; eauto.
  - intros p_root Hfile. rewrite Hfile. simpl. split; [|split].
    + intros e. apply parse_items_not_thrown.
    + intros Hall. by apply parse_items_complete, parse_items_descriptors.
    + intros pre p_node post -> Hall Hmissing.
      apply parse_items_undefined; [by apply parse_items_descriptors|].
      by apply parse_item_incomplete.
  - apply missing_property_incomplete.
Qed.

Lemma parse_menu_file_outcomes_witness :
  (exists e,
     parse_menu_file Sample.files (new_cEditor "editor/broken.xml" "level" Sample.home_x 1)
     = (new_cEditor "editor/broken.xml" "level" Sample.home_x 1, Thrown e)) /\
  (m_name <$> m_menu_entries (fst (parse_menu_file Sample.files Sample.level_editor)))
    = ["Enemies"; "Ground"; "--- Special ---"] /\
  snd (parse_menu_file Sample.files Sample.level_editor) = Normal tt /\
  parse_menu_file (fun _ => XmlDocument menu_without_color_value) Sample.level_editor
    = (Sample.level_editor, Undefined).
Proof.
  split; [|split; [|split]].
  - apply (proj1 (parse_menu_file_outcomes Sample.files
                    (new_cEditor "editor/broken.xml" "level" Sample.home_x 1))).
    right. reflexivity.
  - destruct (proj1 (proj2 (parse_menu_file_outcomes Sample.files Sample.level_editor))
                Sample.menu eq_refl) as (_ & Hcomplete & _).
    rewrite Hcomplete; [reflexivity|].
    repeat constructor; (by eexists) || (by left) || (right; by eexists).
  - destruct (proj1 (proj2 (parse_menu_file_outcomes Sample.files Sample.level_editor))
                Sample.menu eq_refl) as (_ & Hcomplete & _).
    rewrite Hcomplete; [reflexivity|].
    repeat constructor; (by eexists) || (by left) || (right; by eexists).
  - destruct (proj1 (proj2 (parse_menu_file_outcomes
                              (fun _ => XmlDocument menu_without_color_value)
                              Sample.level_editor))
                menu_without_color_value eq_refl) as (_ & _ & Hfirst).
    rewrite (Hfirst [] _ [] eq_refl); [reflexivity | constructor |].
    intros (_ & _ & [Hcolor | [colorstr Hcolor]]); discriminate.
Defined.

(** C8 (as stated) fails: on the menu whose second item has no name
    property the loader throws nothing; it runs into undefined behaviour
    after the first descriptor.  The same happens for a missing tags
    property. *)
Lemma missing_property_is_not_reported :
  let no_name :=
    parse_menu_file Sample.files (new_cEditor "editor/no_name.xml" "level" Sample.home_x 1) in
  let no_tags :=
    parse_menu_file Sample.files (new_cEditor "editor/no_tags.xml" "level" Sample.home_x 1) in
  snd no_name = Undefined /\ (forall e, snd no_name <> Thrown e) /\
  (m_name <$> m_menu_entries (fst no_name)) = ["Enemies"] /\
  snd no_tags = Undefined /\ (forall e, snd no_tags <> Thrown e).
Proof. repeat split; done. Qed.

(** A menu file that cannot be read stops [Init] before any image is
    scanned. *)
Lemma Init_stops_at_menu_failure files pixmaps image_files ed :
  files (m_menu_filename ed) = NoXmlFile \/ files (m_menu_filename ed) = MalformedXml ->
  exists e, Init files pixmaps image_files ed = (ed, Thrown e).
Proof.
  intros Hfile. unfold Init, parse_menu_file.
  destruct Hfile as [-> | ->]; simpl; eauto.
Qed.

(** ** Visibility state machine *)

Section VisibilityFacts.

Variable speedfactor_fps : Q.

Lemma Update_rest sf ed :
  fading ed -> (speedfactor_fps * 2 <= m_visibility_timer ed)%Q ->
  Update speedfactor_fps sf ed =
  with_visibility (m_enabled ed) true 0 (m_mouse_inside ed)
    (with_tabpane (tabpane_visible ed) 1 rest_x_position ed).
Proof.
  intros (Hen & Hin & Hre) Hle. unfold Update.
  rewrite Hen, Hin, Hre. simpl.
  apply Qle_bool_iff in Hle. by rewrite Hle.
Qed.

Lemma Update_fade sf ed :
  fading ed -> (m_visibility_timer ed < speedfactor_fps * 2)%Q ->
  Update speedfactor_fps sf ed =
  with_tabpane (tabpane_visible ed)
    (1 - (1 * (m_visibility_timer ed + sf)) / (speedfactor_fps * 2))%Q (tabpane_x ed)
    (with_visibility (m_enabled ed) (m_rested ed) (m_visibility_timer ed + sf)%Q
       (m_mouse_inside ed) ed).
Proof.
  intros (Hen & Hin & Hre) Hlt. unfold Update.
  rewrite Hen, Hin, Hre. simpl.
  destruct (Qle_bool (speedfactor_fps * 2) (m_visibility_timer ed)) eqn:Hle; [|done].
  apply Qle_bool_iff in Hle. lra.
Qed.

Lemma Update_rested sf ed : m_rested ed = true -> Update speedfactor_fps sf ed = ed.
Proof.
  intros Hre. unfold Update. rewrite Hre.
  by destruct (m_enabled ed), (m_mouse_inside ed).
Qed.












(** An event other than pointer-enter leaves a rested panel rested and
    its alpha as it was. *)
Lemma handle_rested ed ev :
  m_rested ed = true -> ev <> Ev_mouse_enter ->
  m_rested (handle speedfactor_fps ed ev) = true /\
  tabpane_alpha (handle speedfactor_fps ed ev) = tabpane_alpha ed.
Proof.
  intros Hre Hev. destruct ev as [sf| | | | |]; cbn [handle].
  - by rewrite (Update_rested sf ed Hre).
  - done.
  - done.
  - unfold Enable. by destruct (m_enabled ed).
  - unfold Disable. by destruct (m_enabled ed).
  - unfold Toggle, Enable, Disable. by destruct (m_enabled ed).
Qed.

(** C6: once the panel is rested, no sequence of events without a
    pointer-enter (update ticks, pointer-leave, enabling, disabling)
    changes the alpha or clears [m_rested]; the event that clears
    [m_rested] is pointer-enter, and only it. *)
Theorem alpha_frozen_once_rested ed evs :
  m_rested ed = true ->
  Forall (fun ev => ev <> Ev_mouse_enter) evs ->
  m_rested (run speedfactor_fps evs ed) = true /\
  tabpane_alpha (run speedfactor_fps evs ed) = tabpane_alpha ed /\
  (forall ev, m_rested (handle speedfactor_fps ed ev) = false -> ev = Ev_mouse_enter) /\
  m_rested (on_mouse_enter ed) = false.
Proof.
  intros Hre Hevs. split; [|split; [|split; [|done]]].
  - revert ed Hre. unfold run.
    induction Hevs as [|ev evs Hev Hevs IH]; intros ed Hre; [done|].
    cbn [foldl]. apply IH. by apply handle_rested.
  - revert ed Hre. unfold run.
    induction Hevs as [|ev evs Hev Hevs IH]; intros ed Hre; [done|].
    cbn [foldl]. destruct (handle_rested ed ev Hre Hev) as [Hre' Halpha].
    by rewrite IH.
  - intros ev Hcleared.
    assert (ev <> Ev_mouse_enter -> False) as Hno.
    { intros Hne. destruct (handle_rested ed ev Hre Hne) as [Hre' _]. congruence. }
    destruct ev; try reflexivity; exfalso; by apply Hno.
Qed.

(** C4 (as amended): an update tick that starts with the panel enabled,
    the pointer outside, the panel not rested and the timer at or above
    the timeout parks the panel: [m_rested] becomes true, the alpha is set
    to 1, the X position to the offscreen position and the timer to 0.
    The tick whose increment brings the timer to exactly the timeout only
    sets the alpha to 0; the tick after it parks the panel. *)
Theorem Update_rests_on_tick_after_timeout sf ed :
  fading ed ->
  ((speedfactor_fps * 2 <= m_visibility_timer ed)%Q ->
   m_rested (Update speedfactor_fps sf ed) = true /\
   tabpane_alpha (Update speedfactor_fps sf ed) = 1%Q /\
   tabpane_x (Update speedfactor_fps sf ed) = rest_x_position /\
   m_visibility_timer (Update speedfactor_fps sf ed) = 0%Q) /\
  ((0 < speedfactor_fps)%Q ->
   (m_visibility_timer ed < speedfactor_fps * 2)%Q ->
   (m_visibility_timer ed + sf == speedfactor_fps * 2)%Q ->
   m_rested (Update speedfactor_fps sf ed) = false /\
   (tabpane_alpha (Update speedfactor_fps sf ed) == 0)%Q /\
   tabpane_x (Update speedfactor_fps sf ed) = tabpane_x ed /\
   forall sf',
     m_rested (Update speedfactor_fps sf' (Update speedfactor_fps sf ed)) = true /\
     tabpane_alpha (Update speedfactor_fps sf' (Update speedfactor_fps sf ed)) = 1%Q /\
     tabpane_x (Update speedfactor_fps sf' (Update speedfactor_fps sf ed)) = rest_x_position /\
     m_visibility_timer (Update speedfactor_fps sf' (Update speedfactor_fps sf ed)) = 0%Q).
Proof.
  intros Hfading. split.
  - intros Hle. by rewrite (Update_rest sf ed Hfading Hle).
  - intros Hfps Hlt Hreach.
    assert (fading (Update speedfactor_fps sf ed) /\
            (speedfactor_fps * 2 <= m_visibility_timer (Update speedfactor_fps sf ed))%Q)
      as [Hfading' Hle'].
    { rewrite (Update_fade sf ed Hfading Hlt).
      destruct Hfading as (Hen & Hin & Hre). unfold fading. simpl.
      repeat split; try done. rewrite Hreach. apply Qle_refl. }
    split; [apply Hfading'|]. split; [|split].
    + rewrite (Update_fade sf ed Hfading Hlt). simpl.
      rewrite Hreach. field. lra.
    + by rewrite (Update_fade sf ed Hfading Hlt).
    + intros sf'. by rewrite (Update_rest sf' _ Hfading' Hle').
Qed.

End VisibilityFacts.

Lemma Update_rests_on_tick_after_timeout_witness :
  m_rested (Update 32 1 (with_visibility true false 64 false Sample.loaded_editor))
    = true /\
  m_rested (Update 32 1 Sample.fading_editor) = false /\
  (tabpane_alpha (Update 32 1 Sample.fading_editor) == 0)%Q /\
  m_rested (Update 32 1 (Update 32 1 Sample.fading_editor)) = true.
Proof.
  assert (fading Sample.fading_editor) as Hfading by (by repeat split).
  assert (fading (with_visibility true false 64 false Sample.loaded_editor))
    as Hfading' by (by repeat split).
  destruct (Update_rests_on_tick_after_timeout 32 1 _ Hfading') as [Hrest _].
  destruct (Update_rests_on_tick_after_timeout 32 1 _ Hfading) as [_ Hreach].
  split.
  - apply Hrest. simpl. lra.
  - destruct Hreach as (Hre & Halpha & _ & Hnext); simpl; try lra.
    split; [exact Hre|]. split; [exact Halpha|]. apply (Hnext 1%Q).
Defined.

(** C4 (as stated) fails: at 32 frames per second, the tick that takes the
    timer from 63 to the timeout 64 leaves the panel unparked, at alpha 0
    and at its old X position, with the timer at 64. *)
Lemma timer_reaching_timeout_only_fades :
  let ed := Sample.fading_editor in
  let ed' := Update 32 1 ed in
  fading ed /\
  (m_visibility_timer ed < 32 * 2)%Q /\
  (m_visibility_timer ed' == 32 * 2)%Q /\
  m_rested ed' = false /\
  (tabpane_alpha ed' == 0)%Q /\
  ~ (tabpane_alpha ed' == 1)%Q /\
  tabpane_x ed' <> rest_x_position /\
  ~ (m_visibility_timer ed' == 0)%Q.
Proof. vm_compute. repeat split; congruence. Qed.



Lemma alpha_frozen_once_rested_witness :
  let evs := [Ev_Update 1; Ev_mouse_leave; Ev_Update 5; Ev_Toggle; Ev_Enable] in
  m_rested (run 32 evs Sample.rested_editor) = true /\
  tabpane_alpha (run 32 evs Sample.rested_editor) = 1%Q.
Proof.
  intros evs.
  destruct (alpha_frozen_once_rested 32 Sample.rested_editor evs) as (Hre & Halpha & _).
  - reflexivity.
  - repeat constructor; discriminate.
  - split; [exact Hre | exact Halpha].
Defined.

(** * Further properties *)

(** ** Panel layout *)

Lemma place_all_cons item items e :
  place_all (item :: items) e = place_all items (Add_Image_Item item.1 item.2 e).
Proof. reflexivity. Qed.

Lemma place_all_app items1 items2 e :
  place_all (items1 ++ items2) e = place_all items2 (place_all items1 e).
Proof. unfold place_all. apply foldl_app. Qed.

(** The offsets of the first 1398102 items are floats. *)
Lemma UDim_int_item_offset scale k (d : Z) :
  (Z.of_nat k < 1398102)%Z -> (d = 0 \/ d = labelheight)%Z ->
  UDim_int scale (Z.of_nat k * (labelheight + imageheight + yskip) + d) =
  mkUDim scale (inject_Z (Z.of_nat k * (labelheight + imageheight + yskip) + d)).
Proof.
  intros Hk Hd. unfold UDim_int. do 2 f_equal.
  unfold labelheight, imageheight, yskip in *.
  apply float_of_int_exact; [lia|].
  destruct Hd as [-> | ->].
  - replace (Z.of_nat k * (24 + 48 + 24) + 0)%Z with (Z.of_nat k * 12 * 8)%Z by lia.
    apply Z.mod_mul. lia.
  - replace (Z.of_nat k * (24 + 48 + 24) + 24)%Z
      with ((Z.of_nat k * 12 + 3) * 8)%Z by lia.
    apply Z.mod_mul. lia.
Qed.

Lemma mp_tab_pane_place_all_from k items e :
  m_element_y e = (Z.of_nat k * (labelheight + imageheight + yskip))%Z ->
  (Z.of_nat (k + length items) <= 1398102)%Z ->
  mp_tab_pane (place_all items e) =
  mp_tab_pane e ++
  concat (imap (fun j item => [label_window (k + j) item; image_window (k + j) item])
            items).
Proof.
  revert k e. induction items as [|item items IH]; intros k e Hy Hk.
  - simpl. by rewrite app_nil_r.
  - cbn [length] in Hk. rewrite place_all_cons, (IH (S k)).
    + cbn [imap concat Add_Image_Item mp_tab_pane].
      rewrite <- app_assoc. f_equal. rewrite Nat.add_0_r.
      cbn [app]. f_equal; [|f_equal].
      * unfold label_window. rewrite Hy.
        rewrite <- (Z.add_0_r (Z.of_nat k * _)) at 1.
        rewrite (UDim_int_item_offset 0 k 0) by (lia || by left).
        rewrite Z.add_0_r. reflexivity.
      * unfold image_window. rewrite Hy. unfold int_add.
        rewrite int_wrap_small by (unfold labelheight, imageheight, yskip; lia).
        rewrite (UDim_int_item_offset 0 k labelheight) by (lia || by right).
        reflexivity.
      * f_equal. apply imap_ext. intros j x _.
        unfold compose. by rewrite Nat.add_succ_r.
    + rewrite m_element_y_Add_Image_Item, Hy. unfold int_add.
      rewrite int_wrap_small by (unfold labelheight, imageheight, yskip; lia). lia.
    + lia.
Qed.

(** X1: the pane of a panel that received [k] items, [k] at most 1398102,
    holds, in call order, the label and the image of each item; item [j] has
    its label at offset [96 * j] and its image right below the label, at
    [96 * j + 24]. *)
Theorem pane_of_fresh_panel name items :
  (Z.of_nat (length items) <= 1398102)%Z ->
  mp_tab_pane (place_all items (new_cEditor_Menu_Entry name)) =
  concat (imap (fun j item => [label_window j item; image_window j item]) items).
Proof. intros Hk. by rewrite (mp_tab_pane_place_all_from 0). Qed.

Lemma pane_of_fresh_panel_witness :
  w_position
    <$> mp_tab_pane
          (place_all [("ground/stone.png", Sample.stone); ("enemy/boss.png", Sample.boss)]
             (new_cEditor_Menu_Entry "Ground")) =
  [(mkUDim 0 0, mkUDim 0 0);
   (mkUDim (1 # 2) (-24), mkUDim 0 24);
   (mkUDim 0 0, mkUDim 0 96);
   (mkUDim (1 # 2) (-24), mkUDim 0 120)].
Proof.
  rewrite (pane_of_fresh_panel "Ground"
             [("ground/stone.png", Sample.stone); ("enemy/boss.png", Sample.boss)])
    by (simpl; lia).
  reflexivity.
Defined.

(** The bound is sharp: the image of item 1398102 belongs at offset
    134217816, which is no float; the window is put 8 further down. *)
Lemma image_offset_is_rounded string_path settings e :
  m_element_y e = (1398102 * (labelheight + imageheight + yskip))%Z ->
  (w_position <$> mp_tab_pane (Add_Image_Item string_path settings e)) =
  (w_position <$> mp_tab_pane e) ++
  [(mkUDim 0 0, mkUDim 0 134217792);
   (mkUDim (1 # 2) (-24), mkUDim 0 134217824)].
Proof.
  intros Hy. cbn [Add_Image_Item mp_tab_pane]. rewrite fmap_app, Hy. reflexivity.
Qed.

(** ** What a scan changes *)

Lemma grown_from_refl e : grown_from e e.
Proof. unfold grown_from. repeat split; done. Qed.

Lemma grown_from_Add_Image_Item string_path settings e e' :
  grown_from e e' -> grown_from e (Add_Image_Item string_path settings e').
Proof.
  intros (Hn & Hc & Ht & Hh & Hp). unfold grown_from. simpl.
  repeat split; try done.
  by apply prefix_app_r.
Qed.

Lemma add_to_targets_grown string_path settings targets l entries :
  Forall2 grown_from l entries ->
  Forall2 grown_from l (add_to_targets string_path settings targets entries).
Proof.
  unfold add_to_targets. revert entries.
  induction targets as [|p targets IH]; intros entries Hl; [done|].
  cbn [foldl]. apply IH. apply Forall2_alter_r; [done|].
  intros x y _ _. apply grown_from_Add_Image_Item.
Qed.

Lemma Try_Add_Editor_Item_cases pixmaps pixmap_path ed :
  (Try_Add_Editor_Item pixmaps pixmap_path ed).1 = ed \/
  exists settings,
    pixmaps pixmap_path = SettingsFile settings /\
    has_master_tag ed settings = true /\
    (Try_Add_Editor_Item pixmaps pixmap_path ed).1 =
    with_menu_entries
      (add_to_targets pixmap_path settings
         (find_target_menu_entries_for settings ed) (m_menu_entries ed)) ed.
Proof.
  destruct (pixmaps pixmap_path) as [|why|settings] eqn:Hfile.
  - left. apply Try_Add_Editor_Item_without_settings. intros s. by rewrite Hfile.
  - left. apply Try_Add_Editor_Item_without_settings. intros s. by rewrite Hfile.
  - rewrite (Try_Add_Editor_Item_with_settings _ _ _ _ Hfile).
    destruct (has_master_tag ed settings) eqn:Hmaster; [right|by left].
    by exists settings.
Qed.

Lemma Try_Add_Editor_Item_frame pixmaps pixmap_path ed :
  with_menu_entries (m_menu_entries ed) (Try_Add_Editor_Item pixmaps pixmap_path ed).1
  = ed.
Proof.
  destruct (Try_Add_Editor_Item_cases pixmaps pixmap_path ed)
    as [-> | (s & _ & _ & ->)]; by destruct ed.
Qed.

Lemma Try_Add_Editor_Item_grown pixmaps pixmap_path l ed :
  Forall2 grown_from l (m_menu_entries ed) ->
  Forall2 grown_from l (m_menu_entries (Try_Add_Editor_Item pixmaps pixmap_path ed).1).
Proof.
  intros Hl.
  destruct (Try_Add_Editor_Item_cases pixmaps pixmap_path ed)
    as [-> | (s & _ & _ & ->)]; [done|].
  by apply add_to_targets_grown.
Qed.

Lemma load_image_items_cons pixmaps f rest ed :
  load_image_items pixmaps (f :: rest) ed =
  match snd (Try_Add_Editor_Item pixmaps f ed) with
  | Normal _ => load_image_items pixmaps rest (Try_Add_Editor_Item pixmaps f ed).1
  | Thrown e => ((Try_Add_Editor_Item pixmaps f ed).1, Thrown e)
  | Undefined => ((Try_Add_Editor_Item pixmaps f ed).1, Undefined)
  end.
Proof.
  simpl. by destruct (Try_Add_Editor_Item pixmaps f ed) as [ed' [added|e|]].
Qed.

Lemma load_image_items_grown pixmaps image_files l ed :
  Forall2 grown_from l (m_menu_entries ed) ->
  Forall2 grown_from l (m_menu_entries (load_image_items pixmaps image_files ed).1).
Proof.
  revert ed. induction image_files as [|f rest IH]; intros ed Hl; [done|].
  rewrite load_image_items_cons.
  pose proof (Try_Add_Editor_Item_grown pixmaps f l ed Hl) as Hstep.
  destruct (snd (Try_Add_Editor_Item pixmaps f ed)); [by apply IH|done..].
Qed.

Lemma load_image_items_members pixmaps image_files ed :
  with_menu_entries (m_menu_entries ed) (load_image_items pixmaps image_files ed).1 = ed.
Proof.
  revert ed. induction image_files as [|f rest IH]; intros ed.
  - by destruct ed.
  - rewrite load_image_items_cons.
    pose proof (Try_Add_Editor_Item_frame pixmaps f ed) as Hstep.
    destruct (snd (Try_Add_Editor_Item pixmaps f ed)); [|done..].
    transitivity (with_menu_entries (m_menu_entries ed)
                    (Try_Add_Editor_Item pixmaps f ed).1); [|exact Hstep].
    pose proof (IH (Try_Add_Editor_Item pixmaps f ed).1) as Hrest.
    apply (f_equal (with_menu_entries (m_menu_entries ed))) in Hrest.
    exact Hrest.
Qed.

Lemma load_image_items_grown_from_start pixmaps image_files ed :
  Forall2 grown_from (m_menu_entries ed)
    (m_menu_entries (load_image_items pixmaps image_files ed).1).
Proof.
  apply load_image_items_grown. apply Forall_Forall2_diag, Forall_forall.
  intros e _. apply grown_from_refl.
Qed.

(** X2: a directory scan, however it ends,
    changes nothing of the editor but its menu entries, keeps their number
    and order, and changes nothing of an entry but its pane and offset: the
    windows already in the pane stay where they are, in front of the new
    ones. *)
Theorem load_image_items_only_grows_panes pixmaps image_files ed :
  with_menu_entries (m_menu_entries ed) (load_image_items pixmaps image_files ed).1
    = ed /\
  Forall2 grown_from (m_menu_entries ed)
    (m_menu_entries (load_image_items pixmaps image_files ed).1).
Proof.
  split; [apply load_image_items_members | apply load_image_items_grown_from_start].
Qed.

(** ** What a scan places *)

Lemma place_all_descriptor items e :
  m_name (place_all items e) = m_name e /\
  m_required_tags (place_all items e) = m_required_tags e.
Proof.
  revert e. induction items as [|item items IH]; intros e; [done|].
  rewrite place_all_cons. by destruct (IH (Add_Image_Item item.1 item.2 e)) as [-> ->].
Qed.

Lemma items_for_same pixmaps ed ed' e e' image_files :
  m_editor_item_tag ed' = m_editor_item_tag ed ->
  m_required_tags e' = m_required_tags e ->
  items_for pixmaps ed' e' image_files = items_for pixmaps ed e image_files.
Proof.
  intros Htag Htags. unfold items_for, has_master_tag. by rewrite Htag, Htags.
Qed.

Lemma items_for_one pixmaps ed e f :
  items_for pixmaps ed e [f] =
  match pixmaps f with
  | SettingsFile settings =>
      if has_master_tag ed settings
      then if decide (tags_intersect (m_required_tags e)
                        (string_split (m_editor_tags settings) ";"))
           then [(f, settings)] else []
      else []
  | _ => []
  end.
Proof.
  unfold items_for. cbn [omap list_omap].
  destruct (pixmaps f) as [|why|settings]; try done.
  destruct (has_master_tag ed settings); [|done].
  by destruct (decide _).
Qed.

Lemma items_for_cons pixmaps ed e f rest :
  items_for pixmaps ed e (f :: rest) =
  items_for pixmaps ed e [f] ++ items_for pixmaps ed e rest.
Proof. unfold items_for. apply (omap_app _ [f] rest). Qed.

Lemma Try_Add_Editor_Item_places pixmaps pixmap_path ed p e :
  m_menu_entries ed !! p = Some e ->
  m_menu_entries (Try_Add_Editor_Item pixmaps pixmap_path ed).1 !! p =
  Some (place_all (items_for pixmaps ed e [pixmap_path]) e).
Proof.
  intros He. rewrite items_for_one.
  destruct (pixmaps pixmap_path) as [|why|settings] eqn:Hfile.
  - rewrite Try_Add_Editor_Item_without_settings; [exact He|].
    intros s. by rewrite Hfile.
  - rewrite Try_Add_Editor_Item_without_settings; [exact He|].
    intros s. by rewrite Hfile.
  - rewrite (Try_Add_Editor_Item_lookup _ _ _ settings p e Hfile He). f_equal.
    destruct (has_master_tag ed settings).
    + destruct (decide (tags_intersect _ _)) as [Hm|Hm].
      * by rewrite decide_True.
      * rewrite decide_False; [done | by intros [_ ?]].
    + rewrite decide_False; [done | by intros [? _]].
Qed.

(** X3: after a scan in which every settings file parses, the panel of an
    entry is the panel before the scan with one item added for each image of
    the directory that has a settings file, passes the master-tag test and
    shares a tag with the entry; the items follow each other in directory
    order. *)
Theorem load_image_items_places_in_scan_order pixmaps image_files ed p e :
  (forall f why, f ∈ image_files -> pixmaps f <> MalformedSettings why) ->
  m_menu_entries ed !! p = Some e ->
  m_menu_entries (load_image_items pixmaps image_files ed).1 !! p =
  Some (place_all (items_for pixmaps ed e image_files) e).
Proof.
  revert ed e. induction image_files as [|f rest IH]; intros ed e Hfiles He; [done|].
  rewrite load_image_items_cons.
  destruct (Try_Add_Editor_Item_returns pixmaps f ed) as [added Hadded].
  { intros why. apply Hfiles. by left. }
  rewrite Hadded.
  pose proof (Try_Add_Editor_Item_places pixmaps f ed p e He) as Hstep.
  rewrite (IH _ _ (fun f' why Hin => Hfiles f' why (proj2 (elem_of_cons _ _ _) (or_intror Hin)))
             Hstep).
  f_equal. rewrite (items_for_cons pixmaps ed e f rest), place_all_app. f_equal.
  apply items_for_same.
  - pose proof (Try_Add_Editor_Item_frame pixmaps f ed) as Hframe.
    apply (f_equal m_editor_item_tag) in Hframe. exact Hframe.
  - apply place_all_descriptor.
Qed.


Lemma load_image_items_places_in_scan_order_witness :
  w_name <$>
    from_option mp_tab_pane []
      (m_menu_entries
         (load_image_items Sample.pixmaps
            ["ground/stone.png"; "world/globe.png"; "ground/plain.png"; "enemy/boss.png"]
            Sample.loaded_editor).1 !! 1) =
  ["label-of-ground+stone.png"; "image-of-ground+stone.png";
   "label-of-enemy+boss.png"; "image-of-enemy+boss.png"].
Proof.
  rewrite (load_image_items_places_in_scan_order Sample.pixmaps
             ["ground/stone.png"; "world/globe.png"; "ground/plain.png"; "enemy/boss.png"]
             Sample.loaded_editor 1
             (Set_Header false
                (Set_Required_Tags ["ground"; "snow"]
                   (Set_Color (Color_of_string "FFFFFFFF")
                      (new_cEditor_Menu_Entry "Ground"))))).
  - reflexivity.
  - intros f why Hin.
    repeat (apply elem_of_cons in Hin as [->|Hin]; [discriminate|]).
    by apply elem_of_nil in Hin.
  - reflexivity.
Defined.

(** ** Lookup and menu lines after a scan *)

Lemma grown_from_lines l k :
  Forall2 grown_from l k ->
  (fun e => (m_name e, m_color e)) <$> k = (fun e => (m_name e, m_color e)) <$> l.
Proof.
  induction 1 as [|e e' l k (Hn & Hc & _) _ IH]; [done|].
  rewrite !fmap_cons, IH, Hn, Hc. done.
Qed.

Lemma get_menu_entry_from_lines p l k name :
  (fun e => (m_name e, m_color e)) <$> k = (fun e => (m_name e, m_color e)) <$> l ->
  get_menu_entry_from p k name = get_menu_entry_from p l name.
Proof.
  revert p l. induction k as [|e' k IH]; intros p [|e l] Hlines; try done.
  rewrite !fmap_cons in Hlines. injection Hlines as Hn _ Hrest. simpl.
  rewrite Hn. destruct (String.eqb (m_name e) name); [done|]. by apply IH.
Qed.

(** X4: a directory scan does not disturb the menu: a lookup by name gives
    the same pointer (or throws the same error) after the scan as before it,
    and [populate_menu] produces the same lines. *)
Theorem scan_keeps_lookup_and_menu_lines pixmaps image_files ed name :
  get_menu_entry (load_image_items pixmaps image_files ed).1 name
    = get_menu_entry ed name /\
  populate_menu (load_image_items pixmaps image_files ed).1 = populate_menu ed.
Proof.
  pose proof (load_image_items_grown_from_start pixmaps image_files ed) as Hgrown.
  apply grown_from_lines in Hgrown. split; [|exact Hgrown].
  by apply get_menu_entry_from_lines.
Qed.

(** ** Invariants of the entries *)

Lemma parse_items_Forall (P : cEditor_Menu_Entry -> Prop) items ed :
  (forall p_node p_entry, parse_item p_node = Normal p_entry -> P p_entry) ->
  Forall P (m_menu_entries ed) ->
  Forall P (m_menu_entries (parse_items items ed).1).
Proof.
  intros Hitem. revert ed. induction items as [|p_node rest IH]; intros ed Hall; [done|].
  simpl. destruct (parse_item p_node) as [p_entry|e|] eqn:Hp; try done.
  apply IH. simpl. apply Forall_app. split; [done|].
  apply Forall_singleton. by apply (Hitem p_node).
Qed.

Lemma parse_menu_file_Forall (P : cEditor_Menu_Entry -> Prop) files ed :
  (forall p_node p_entry, parse_item p_node = Normal p_entry -> P p_entry) ->
  Forall P (m_menu_entries ed) ->
  Forall P (m_menu_entries (parse_menu_file files ed).1).
Proof.
  intros Hitem Hall. unfold parse_menu_file.
  destruct (parse_file (files (m_menu_filename ed))); try done.
  by apply parse_items_Forall.
Qed.

Lemma add_to_targets_Forall (P : cEditor_Menu_Entry -> Prop)
    string_path settings targets entries :
  (forall e, P e -> P (Add_Image_Item string_path settings e)) ->
  Forall P entries ->
  Forall P (add_to_targets string_path settings targets entries).
Proof.
  intros Hadd. unfold add_to_targets. revert entries.
  induction targets as [|p targets IH]; intros entries Hall; [done|].
  cbn [foldl]. apply IH, Forall_alter; [done|]. intros e _. apply Hadd.
Qed.

Lemma load_image_items_Forall (P : cEditor_Menu_Entry -> Prop) pixmaps image_files ed :
  (forall string_path settings e, P e -> P (Add_Image_Item string_path settings e)) ->
  Forall P (m_menu_entries ed) ->
  Forall P (m_menu_entries (load_image_items pixmaps image_files ed).1).
Proof.
  intros Hadd. revert ed. induction image_files as [|f rest IH]; intros ed Hall; [done|].
  rewrite load_image_items_cons.
  assert (Forall P (m_menu_entries (Try_Add_Editor_Item pixmaps f ed).1)) as Hstep.
  { destruct (Try_Add_Editor_Item_cases pixmaps f ed)
      as [-> | (s & _ & _ & ->)]; [done|].
    cbn [m_menu_entries with_menu_entries].
    apply add_to_targets_Forall; [intros e; apply Hadd | done]. }
  destruct (snd (Try_Add_Editor_Item pixmaps f ed)); [by apply IH|done..].
Qed.

(** X5: [Init] keeps the entries well-formed, however it ends: when every
    entry of the editor has its header flag set exactly if "header" is one
    of its required tags, and as offset the [int] that 96 for each
    label-image pair in its pane add up to (with the wrap-around of [int]),
    the same is true of every entry afterwards, the new ones included. *)
Theorem Init_keeps_entries_consistent files pixmaps image_files ed :
  Forall (fun e => header_consistent e /\ offset_consistent e) (m_menu_entries ed) ->
  Forall (fun e => header_consistent e /\ offset_consistent e)
    (m_menu_entries (Init files pixmaps image_files ed).1).
Proof.
  intros Hall. unfold Init.
  assert (Forall (fun e => header_consistent e /\ offset_consistent e)
            (m_menu_entries (parse_menu_file files ed).1)) as Hparsed.
  { apply parse_menu_file_Forall; [|done].
    intros p_node p_entry Hitem.
    destruct (parse_item_descriptor _ _ Hitem)
      as (? & ? & name & tagstr & _ & _ & _ & _ & _ & Htags & Hheader & Hy & Hpane).
    unfold header_consistent, offset_consistent.
    by rewrite Hheader, Htags, Hy, Hpane. }
  destruct (parse_menu_file files ed) as [ed' [[]|e|]]; try done.
  apply load_image_items_Forall; [|done].
  intros string_path settings e [Hh Ho]. split; [exact Hh|].
  unfold offset_consistent in *.
  rewrite m_element_y_Add_Image_Item, Ho. cbn [Add_Image_Item mp_tab_pane].
  unfold int_add. rewrite int_wrap_add_l, length_app. f_equal.
  cbn [length]. rewrite Nat2Z.inj_add.
  change (Z.of_nat 2) with (1 * 2)%Z. rewrite Z.div_add by lia. lia.
Qed.

Lemma Init_keeps_entries_consistent_witness :
  Forall (fun e => header_consistent e /\ offset_consistent e)
    (m_menu_entries
       (Init Sample.files Sample.pixmaps ["ground/stone.png"; "enemy/boss.png"]
          Sample.level_editor).1).
Proof. apply Init_keeps_entries_consistent. constructor. Defined.

(** ** The tag matcher and the asset's tag list *)

Lemma entry_matches_mono requested1 requested2 entries p :
  (forall tag, tag ∈ requested1 -> tag ∈ requested2) ->
  entry_matches requested1 entries p -> entry_matches requested2 entries p.
Proof.
  intros Hsub (e & He & tag & Hreq & Hin). exists e. split; [done|].
  exists tag. split; [done | by apply Hsub].
Qed.

(** X6: the targets of an image depend only on which tags it carries.  An
    image whose tags all occur among the tags of a second image has its
    targets among the targets of the second, in the same order; two images
    with the same set of tags, in whatever order and multiplicity, have the
    same targets. *)
Theorem find_target_menu_entries_for_monotone settings1 settings2 ed :
  let requested1 := string_split (m_editor_tags settings1) ";" in
  let requested2 := string_split (m_editor_tags settings2) ";" in
  ((forall tag, tag ∈ requested1 -> tag ∈ requested2) ->
   find_target_menu_entries_for settings1 ed
     `sublist_of` find_target_menu_entries_for settings2 ed) /\
  ((forall tag, tag ∈ requested1 <-> tag ∈ requested2) ->
   find_target_menu_entries_for settings1 ed = find_target_menu_entries_for settings2 ed).
Proof.
  intros requested1 requested2. rewrite !find_target_menu_entries_for_filter.
  fold requested1 requested2. split.
  - intros Hsub.
    rewrite <- (list_filter_filter_l (entry_matches requested1 (m_menu_entries ed))
                  (entry_matches requested2 (m_menu_entries ed))).
    + apply sublist_filter.
    + intros p. by apply entry_matches_mono.
  - intros Hsame. apply list_filter_iff. intros p.
    split; apply entry_matches_mono; intros tag; apply Hsame.
Qed.

Lemma find_target_menu_entries_for_monotone_witness :
  find_target_menu_entries_for Sample.stone Sample.loaded_editor
    `sublist_of` find_target_menu_entries_for Sample.boss Sample.loaded_editor /\
  find_target_menu_entries_for (mkSettings "Boss" "ground;level;enemy;ground")
    Sample.loaded_editor
  = find_target_menu_entries_for Sample.boss Sample.loaded_editor.
Proof.
  destruct (find_target_menu_entries_for_monotone Sample.stone Sample.boss
              Sample.loaded_editor) as [Hsub _].
  destruct (find_target_menu_entries_for_monotone
              (mkSettings "Boss" "ground;level;enemy;ground") Sample.boss
              Sample.loaded_editor) as [_ Hsame].
  split.
  - apply Hsub. vm_compute. intros tag Hin.
    repeat (apply elem_of_cons in Hin as [->|Hin];
            [repeat ((by left) || right)|]).
    by apply elem_of_nil in Hin.
  - apply Hsame. vm_compute. intros tag.
    split; intros Hin;
      repeat (apply elem_of_cons in Hin as [->|Hin];
              [repeat ((by left) || right)|]);
      by apply elem_of_nil in Hin.
Defined.

(** ** Loading the menu, then using it *)

Lemma get_menu_entry_from_first p entries k d :
  entries !! k = Some d ->
  (forall j d', j < k -> entries !! j = Some d' -> m_name d' <> m_name d) ->
  get_menu_entry_from p entries (m_name d) = Normal (p + k).
Proof.
  revert p k. induction entries as [|e rest IH]; intros p k Hk Hfirst; [done|].
  destruct k as [|k]; simpl in *.
  - injection Hk as ->. by rewrite String.eqb_refl, Nat.add_0_r.
  - destruct (String.eqb_spec (m_name e) (m_name d)) as [Heq|_].
    + by destruct (Hfirst 0 e ltac:(lia) eq_refl).
    + rewrite (IH (S p) k Hk); [f_equal; lia|].
      intros j d' Hj Hd'. apply (Hfirst (S j) d'); [lia | done].
Qed.

(** X7: loading a complete menu document into an editor without entries
    and then using the menu: [populate_menu] lists the items of the document
    in document order, headers included, and a lookup by the name of an item
    returns the position of the first item with that name (the item's own
    position when no earlier item shares its name). *)
Theorem parse_menu_file_then_lookup files ed p_root descriptors :
  files (m_menu_filename ed) = XmlDocument p_root ->
  m_menu_entries ed = [] ->
  Forall2 (fun p_node p_entry => parse_item p_node = Normal p_entry)
    (find_children "item" p_root) descriptors ->
  populate_menu (parse_menu_file files ed).1
    = (fun d => (m_name d, m_color d)) <$> descriptors /\
  forall k d,
    descriptors !! k = Some d ->
    (forall j d', j < k -> descriptors !! j = Some d' -> m_name d' <> m_name d) ->
    get_menu_entry (parse_menu_file files ed).1 (m_name d) = Normal k.
Proof.
  intros Hfile Hempty Hall. unfold parse_menu_file. rewrite Hfile.
  cbn [parse_file]. rewrite (parse_items_complete _ descriptors ed Hall), Hempty.
  unfold populate_menu, get_menu_entry. cbn [fst m_menu_entries with_menu_entries app].
  split; [done|]. intros k d Hk Hfirst.
  by rewrite (get_menu_entry_from_first 0 descriptors k d Hk Hfirst).
Qed.

Lemma parse_menu_file_then_lookup_witness :
  populate_menu (parse_menu_file Sample.files Sample.level_editor).1 =
    [("Enemies", Color_of_string "FFFF0000"); ("Ground", Color_of_string "FFFFFFFF");
     ("--- Special ---", Color_of_string "FFFFFFFF")] /\
  get_menu_entry (parse_menu_file Sample.files Sample.level_editor).1 "Ground"
    = Normal 1.
Proof.
  destruct (parse_menu_file_then_lookup Sample.files Sample.level_editor Sample.menu
              (m_menu_entries Sample.loaded_editor) eq_refl eq_refl)
    as [Hlines Hlookup].
  - repeat constructor.
  - split; [exact Hlines|].
    apply (Hlookup 1 (Set_Header false
                        (Set_Required_Tags ["ground"; "snow"]
                           (Set_Color (Color_of_string "FFFFFFFF")
                              (new_cEditor_Menu_Entry "Ground"))))
             eq_refl).
    intros [|[|j]] d' Hj Hd'; [|lia..].
    injection Hd' as <-. discriminate.
Defined.

(** ** The master-tag test and the tag list *)

Lemma append_nil_r (s : string) : s +:+ "" = s.
Proof. induction s as [|c s IH]; [done|]. by rewrite append_String, IH. Qed.

Lemma append_assoc (s t u : string) : (s +:+ t) +:+ u = s +:+ (t +:+ u).
Proof. induction s as [|c s IH]; [done|]. by rewrite !append_String, IH. Qed.

Lemma is_substring_String c pat s : is_substring pat s -> is_substring pat (String c s).
Proof.
  intros (pre & post & ->). exists (String c pre), post. by rewrite append_String.
Qed.

Lemma is_substring_app_l pre pat s : is_substring pat s -> is_substring pat (pre +:+ s).
Proof.
  intros (pre' & post & ->). exists (pre +:+ pre'), post. by rewrite append_assoc.
Qed.

(** Every piece [split_from] cuts is a piece of the text it was given. *)
Lemma split_from_substring delim skip cur s piece :
  (skip <> 0 -> cur = "") ->
  piece ∈ split_from delim skip cur s ->
  is_substring piece (cur +:+ s).
Proof.
  revert skip cur. induction s as [|c s IH]; intros skip cur Hskip Hin.
  - simpl in Hin. apply list_elem_of_singleton in Hin as ->.
    exists "", "". by rewrite append_nil_r.
  - destruct skip as [|k].
    + cbn [split_from] in Hin.
      destruct (String.prefix delim (String c s) && negb (String.eqb delim "")).
      * apply elem_of_cons in Hin as [->|Hin].
        -- by exists "", (String c s).
        -- apply is_substring_app_l, is_substring_String.
           apply (IH _ "" (fun _ => eq_refl) Hin).
      * replace (cur +:+ String c s) with ((cur +:+ String c "") +:+ s)
          by (by rewrite append_assoc).
        apply (IH 0 (cur +:+ String c "")); [done | exact Hin].
    + cbn [split_from] in Hin. rewrite (Hskip ltac:(done)) in *.
      apply is_substring_String. apply (IH k "" (fun _ => eq_refl) Hin).
Qed.

(** X8: the master-tag test never rejects an image that carries the master
    tag: when the master tag is one of the tags of the ';'-delimited tag
    string, [Try_Add_Editor_Item] goes on to place the image and returns
    true. *)
Theorem master_tag_in_list_passes pixmaps pixmap_path ed settings :
  pixmaps pixmap_path = SettingsFile settings ->
  m_editor_item_tag ed ∈ string_split (m_editor_tags settings) ";" ->
  snd (Try_Add_Editor_Item pixmaps pixmap_path ed) = Normal true.
Proof.
  intros Hfile Hin.
  rewrite (Try_Add_Editor_Item_with_settings _ _ _ _ Hfile).
  assert (has_master_tag ed settings = true) as ->; [|done].
  apply has_master_tag_substring.
  apply (split_from_substring ";" 0 "" _ _ ltac:(done) Hin).
Qed.

Lemma master_tag_in_list_passes_witness :
  snd (Try_Add_Editor_Item Sample.pixmaps "enemy/boss.png" Sample.loaded_editor)
    = Normal true.
Proof.
  apply (master_tag_in_list_passes Sample.pixmaps "enemy/boss.png"
           Sample.loaded_editor Sample.boss eq_refl).
  vm_compute. by left.
Defined.

(** ** More on the visibility state machine *)

Section VisibilityMore.

Variable speedfactor_fps : Q.

Lemma ticks_cons sf sfs ed :
  ticks speedfactor_fps (sf :: sfs) ed =
  ticks speedfactor_fps sfs (Update speedfactor_fps sf ed).
Proof. reflexivity. Qed.

Lemma run_cons ev evs ed :
  run speedfactor_fps (ev :: evs) ed =
  run speedfactor_fps evs (handle speedfactor_fps ed ev).
Proof. reflexivity. Qed.

Lemma Update_not_fading sf ed : ~ fading ed -> Update speedfactor_fps sf ed = ed.
Proof.
  intros Hnot. unfold Update, fading in *.
  destruct (m_enabled ed), (m_mouse_inside ed), (m_rested ed); simpl; try done.
  by destruct Hnot.
Qed.

Lemma ticks_not_fading sfs ed : ~ fading ed -> ticks speedfactor_fps sfs ed = ed.
Proof.
  intros Hnot. induction sfs as [|sf sfs IH]; [done|].
  by rewrite ticks_cons, Update_not_fading.
Qed.

(** X9: update ticks change nothing unless the editor is enabled, the
    pointer is outside and the panel is not rested.  So a disabled editor
    does not age: disabling an enabled editor, letting any number of ticks
    pass and enabling it again gives back the editor as it was, timer and
    alpha included. *)
Theorem ticks_only_act_while_fading sfs ed :
  (~ fading ed -> ticks speedfactor_fps sfs ed = ed) /\
  (shown_iff_enabled ed -> m_enabled ed = true ->
   Enable (ticks speedfactor_fps sfs (Disable ed)) = ed).
Proof.
  split; [apply ticks_not_fading|].
  intros Hshown Hen. rewrite ticks_not_fading.
  - unfold shown_iff_enabled in Hshown. rewrite Hen in Hshown.
    unfold Enable, Disable. rewrite Hen. simpl.
    destruct ed. simpl in *. by subst.
  - unfold fading, Disable. rewrite Hen. simpl. by intros [? _].
Qed.

Lemma handle_shown_iff_enabled ed ev :
  shown_iff_enabled ed -> shown_iff_enabled (handle speedfactor_fps ed ev).
Proof.
  unfold shown_iff_enabled. intros Hshown.
  destruct ev as [sf| | | | |]; cbn [handle]; try done.
  - unfold Update.
    destruct (m_enabled ed) eqn:Hen, (m_mouse_inside ed), (m_rested ed);
      cbv zeta; cbn [negb]; try congruence.
    destruct (Qle_bool _ _); simpl; congruence.
  - unfold Enable. destruct (m_enabled ed) eqn:Hen; simpl; congruence.
  - unfold Disable. destruct (m_enabled ed) eqn:Hen; simpl; congruence.
  - unfold Toggle, Enable, Disable. destruct (m_enabled ed) eqn:Hen; simpl; congruence.
Qed.

Lemma run_shown_iff_enabled evs ed :
  shown_iff_enabled ed -> shown_iff_enabled (run speedfactor_fps evs ed).
Proof.
  revert ed. induction evs as [|ev evs IH]; intros ed Hshown; [done|].
  rewrite run_cons. by apply IH, handle_shown_iff_enabled.
Qed.

Lemma Toggle_Toggle ed : shown_iff_enabled ed -> Toggle (Toggle ed) = ed.
Proof.
  unfold shown_iff_enabled, Toggle, Enable, Disable. intros Hshown.
  destruct ed as [visible alpha x enabled rested timer inside target filename tag entries].
  simpl in *. subst. by destruct enabled.
Qed.

(** X10: the panel is shown exactly when the editor is enabled: if that
    holds at some point (it does after construction) it holds after every
    sequence of events; and in every such state [Toggle] flips [m_enabled]
    and two calls of [Toggle] give back the state they started from. *)
Theorem shown_iff_enabled_invariant evs ed :
  shown_iff_enabled ed ->
  shown_iff_enabled (run speedfactor_fps evs ed) /\
  m_enabled (Toggle (run speedfactor_fps evs ed))
    = negb (m_enabled (run speedfactor_fps evs ed)) /\
  Toggle (Toggle (run speedfactor_fps evs ed)) = run speedfactor_fps evs ed.
Proof.
  intros Hshown. pose proof (run_shown_iff_enabled evs ed Hshown) as Hrun.
  split; [exact Hrun|]. split; [|by apply Toggle_Toggle].
  unfold Toggle, Enable, Disable.
  by destruct (m_enabled (run speedfactor_fps evs ed)).
Qed.

Lemma Update_cases sf ed :
  Update speedfactor_fps sf ed = ed \/
  m_rested (Update speedfactor_fps sf ed) = false \/
  (tabpane_alpha (Update speedfactor_fps sf ed) = 1%Q /\
   tabpane_x (Update speedfactor_fps sf ed) = rest_x_position /\
   m_visibility_timer (Update speedfactor_fps sf ed) = 0%Q /\
   m_mouse_inside (Update speedfactor_fps sf ed) = false).
Proof.
  unfold Update.
  destruct (m_enabled ed), (m_mouse_inside ed) eqn:Hin, (m_rested ed) eqn:Hre;
    cbv zeta; cbn [negb]; auto.
  destruct (Qle_bool _ _); simpl; [right; right; by repeat split | right; by left].
Qed.

Lemma handle_parked_if_rested ed ev :
  parked_if_rested ed -> parked_if_rested (handle speedfactor_fps ed ev).
Proof.
  unfold parked_if_rested. intros Hparked.
  destruct ev as [sf| | | | |]; cbn [handle]; try done.
  - destruct (Update_cases sf ed) as [-> | [Hre | Hrest]]; [done|congruence|done].
  - simpl. intros Hre. by destruct (Hparked Hre) as (? & ? & ? & _).
  - unfold Enable. by destruct (m_enabled ed).
  - unfold Disable. by destruct (m_enabled ed).
  - unfold Toggle, Enable, Disable. by destruct (m_enabled ed).
Qed.

(** X11: a rested panel is always parked.  If at some point the panel is
    not rested, or is rested and parked (alpha 1, offscreen X position,
    timer 0, pointer outside), then after every sequence of events a rested
    panel is parked. *)
Theorem rested_panel_is_parked evs ed :
  parked_if_rested ed -> parked_if_rested (run speedfactor_fps evs ed).
Proof.
  revert ed. induction evs as [|ev evs IH]; intros ed Hparked; [done|].
  rewrite run_cons. by apply IH, handle_parked_if_rested.
Qed.

(** The pointer is inside and the panel at home. *)
Lemma handle_pointer_inside ed ev :
  ev <> Ev_mouse_leave ->
  m_mouse_inside ed = true /\ tabpane_alpha ed = 1%Q /\
  tabpane_x ed = m_target_x_position ed /\
  m_visibility_timer ed = 0%Q /\ m_rested ed = false ->
  let ed' := handle speedfactor_fps ed ev in
  m_mouse_inside ed' = true /\ tabpane_alpha ed' = 1%Q /\
  tabpane_x ed' = m_target_x_position ed' /\
  m_visibility_timer ed' = 0%Q /\ m_rested ed' = false /\
  m_target_x_position ed' = m_target_x_position ed.
Proof.
  intros Hev (Hin & Halpha & Hx & Ht & Hre).
  destruct ev as [sf| | | | |]; cbn [handle]; try done.
  - unfold Update. rewrite Hin. by destruct (m_enabled ed).
  - unfold Enable. by destruct (m_enabled ed).
  - unfold Disable. by destruct (m_enabled ed).
  - unfold Toggle, Enable, Disable. by destruct (m_enabled ed).
Qed.

(** X12: as long as the pointer does not leave, the panel stays at home:
    after a pointer-enter event, no sequence of update ticks, enabling,
    disabling and further pointer-enter events moves the panel from its home
    X position, lowers its alpha from 1, starts the timer or parks the
    panel. *)
Theorem pointer_inside_keeps_panel_home evs ed :
  Forall (fun ev => ev <> Ev_mouse_leave) evs ->
  let ed' := run speedfactor_fps evs (on_mouse_enter ed) in
  m_mouse_inside ed' = true /\ tabpane_alpha ed' = 1%Q /\
  tabpane_x ed' = m_target_x_position ed /\
  m_visibility_timer ed' = 0%Q /\ m_rested ed' = false.
Proof.
  intros Hevs.
  assert (forall ed0,
            m_mouse_inside ed0 = true /\ tabpane_alpha ed0 = 1%Q /\
            tabpane_x ed0 = m_target_x_position ed0 /\
            m_visibility_timer ed0 = 0%Q /\ m_rested ed0 = false ->
            let ed' := run speedfactor_fps evs ed0 in
            m_mouse_inside ed' = true /\ tabpane_alpha ed' = 1%Q /\
            tabpane_x ed' = m_target_x_position ed0 /\
            m_visibility_timer ed' = 0%Q /\ m_rested ed' = false) as Hgen.
  { induction Hevs as [|ev evs Hev Hevs IH]; intros ed0 Hhome; [done|].
    rewrite run_cons.
    destruct (handle_pointer_inside ed0 ev Hev Hhome)
      as (H1 & H2 & H3 & H4 & H5 & H6).
    rewrite <- H6. by apply IH. }
  by apply (Hgen (on_mouse_enter ed)).
Qed.

Lemma handle_timer_and_alpha_bounded ed ev :
  (0 < speedfactor_fps)%Q -> speed_nonneg ev ->
  timer_and_alpha_bounded ed ->
  timer_and_alpha_bounded (handle speedfactor_fps ed ev).
Proof.
  unfold timer_and_alpha_bounded. intros Hfps Hev [Ht Ha].
  destruct ev as [sf| | | | |]; cbn [handle].
  - unfold Update.
    destruct (m_enabled ed), (m_mouse_inside ed), (m_rested ed);
      cbv zeta; cbn [negb]; try done.
    destruct (Qle_bool _ _); cbn; [split; lra|].
    cbn in Hev. split; [lra|].
    assert (0 <= 1 * (m_visibility_timer ed + sf) / (speedfactor_fps * 2))%Q.
    { apply Qle_shift_div_l; lra. }
    lra.
  - cbn. split; lra.
  - done.
  - unfold Enable. by destruct (m_enabled ed).
  - unfold Disable. by destruct (m_enabled ed).
  - unfold Toggle, Enable, Disable. by destruct (m_enabled ed).
Qed.

(** X19: with non-negative speed factors the timer never becomes negative
    and the alpha never exceeds 1: both hold after a pointer-enter event and
    after every sequence of events that follows it. *)
Theorem timer_and_alpha_stay_bounded evs ed :
  (0 < speedfactor_fps)%Q -> Forall speed_nonneg evs ->
  timer_and_alpha_bounded (run speedfactor_fps evs (on_mouse_enter ed)).
Proof.
  intros Hfps Hevs.
  assert (timer_and_alpha_bounded (on_mouse_enter ed)) as Hstart
    by (unfold timer_and_alpha_bounded; cbn; split; lra).
  revert Hstart. generalize (on_mouse_enter ed) as ed0.
  induction Hevs as [|ev evs Hev Hevs IH]; intros ed0 Hstart; [done|].
  rewrite run_cons. by apply IH, handle_timer_and_alpha_bounded.
Qed.

End VisibilityMore.

Lemma ticks_only_act_while_fading_witness :
  let ed := run 32 [Ev_Enable; Ev_mouse_leave; Ev_Update 5] Sample.loaded_editor in
  ticks 32 [1; 2; 3]%Q Sample.loaded_editor = Sample.loaded_editor /\
  (m_visibility_timer ed == 5)%Q /\
  Enable (ticks 32 [1; 2; 3]%Q (Disable ed)) = ed.
Proof.
  intros ed.
  destruct (ticks_only_act_while_fading 32 [1; 2; 3]%Q Sample.loaded_editor)
    as [Hidle _].
  destruct (ticks_only_act_while_fading 32 [1; 2; 3]%Q ed) as [_ Hresume].
  split; [|split].
  - apply Hidle. by intros [? _].
  - reflexivity.
  - by apply Hresume.
Defined.

Lemma shown_iff_enabled_invariant_witness :
  let ed := run 32 [Ev_Toggle; Ev_mouse_leave; Ev_Update 5; Ev_Disable; Ev_Enable]
              Sample.level_editor in
  tabpane_visible ed = true /\ m_enabled ed = true /\ Toggle (Toggle ed) = ed.
Proof.
  intros ed.
  destruct (shown_iff_enabled_invariant 32
              [Ev_Toggle; Ev_mouse_leave; Ev_Update 5; Ev_Disable; Ev_Enable]
              Sample.level_editor) as (Hshown & _ & Htwice).
  - reflexivity.
  - split; [exact Hshown|]. split; [reflexivity | exact Htwice].
Defined.

Lemma rested_panel_is_parked_witness :
  let ed := run 32 [Ev_Update 1; Ev_Update 1; Ev_Disable; Ev_mouse_leave]
              Sample.fading_editor in
  m_rested ed = true /\ tabpane_alpha ed = 1%Q /\ tabpane_x ed = rest_x_position.
Proof.
  intros ed.
  assert (parked_if_rested Sample.fading_editor) as Hstart by (intros H; discriminate).
  destruct (rested_panel_is_parked 32
              [Ev_Update 1; Ev_Update 1; Ev_Disable; Ev_mouse_leave]
              Sample.fading_editor Hstart eq_refl) as (Ha & Hx & _).
  split; [reflexivity|]. split; [exact Ha | exact Hx].
Defined.

Lemma pointer_inside_keeps_panel_home_witness :
  let ed := run 32 [Ev_Enable; Ev_Update 3; Ev_Update 100; Ev_Toggle; Ev_mouse_enter]
              (on_mouse_enter Sample.fading_editor) in
  tabpane_alpha ed = 1%Q /\ tabpane_x ed = Sample.home_x /\ m_rested ed = false.
Proof.
  intros ed.
  destruct (pointer_inside_keeps_panel_home 32
              [Ev_Enable; Ev_Update 3; Ev_Update 100; Ev_Toggle; Ev_mouse_enter]
              Sample.fading_editor) as (_ & Ha & Hx & _ & Hre).
  - repeat constructor; discriminate.
  - split; [exact Ha|]. split; [exact Hx | exact Hre].
Defined.

Lemma timer_and_alpha_stay_bounded_witness :
  timer_and_alpha_bounded
    (run 32 [Ev_Enable; Ev_mouse_leave; Ev_Update 40; Ev_Update 40; Ev_Update 1]
       (on_mouse_enter Sample.loaded_editor)).
Proof.
  apply timer_and_alpha_stay_bounded; [lra|].
  repeat constructor; cbn; lra.
Defined.

(** ** Lifetime of the owned objects *)

Lemma delete_entries_Normal alive alive' :
  delete_entries alive = Normal alive' ->
  alive' = replicate (length alive) false.
Proof.
  revert alive'. induction alive as [|a rest IH]; intros alive' Hdel; simpl in *.
  - by injection Hdel as <-.
  - destruct a; [|done].
    destruct (delete_entries rest) as [rest'| |]; simpl in Hdel; try done.
    injection Hdel as <-. by rewrite (IH rest').
Qed.

Lemma delete_entries_deleted n :
  delete_entries (replicate n false) = match n with 0 => Normal [] | S _ => Undefined end.
Proof. by destruct n. Qed.

(** With entries alive throughout, [Init_object] is [Init] after the layout
    is loaded. *)
Lemma Init_object_all_alive layout_x layout_alpha files pixmaps image_files obj :
  forallb id (entry_alive obj) = true ->
  let r := Init_object layout_x layout_alpha files pixmaps image_files obj in
  let r' := Init files pixmaps image_files (load_layout layout_x layout_alpha (members obj)) in
  members r.1 = r'.1 /\ r.2 = r'.2.
Proof.
  intros Halive. unfold Init_object, Init.
  destruct (parse_menu_file files _) as [ed' [[]|e|]]; cbn [fst snd]; try done.
  rewrite forallb_app, Halive.
  assert (forallb id (replicate
            (length (m_menu_entries ed')
             - length (m_menu_entries (load_layout layout_x layout_alpha (members obj))))
            true) = true) as ->.
  { generalize (length (m_menu_entries ed')
                - length (m_menu_entries (load_layout layout_x layout_alpha (members obj)))).
    intros n. by induction n. }
  cbn. by destruct (load_image_items pixmaps image_files ed').
Qed.

(** X16: [Unload] deletes the entries but leaves their pointers in
    [m_menu_entries].  After one [Unload] the vector is as long as before
    and the window pointer is null; a second [Unload] (the destructor runs
    one) is harmless only for an editor without menu entries, and deletes
    deleted entries, which is undefined, for every other. *)
Theorem second_Unload_deletes_again obj obj' :
  length (entry_alive obj) = length (m_menu_entries (members obj)) ->
  Unload obj = Normal obj' ->
  m_menu_entries (members obj') = m_menu_entries (members obj) /\
  tabpane_loaded obj' = false /\
  (m_menu_entries (members obj) = [] -> Unload obj' = Normal obj') /\
  (m_menu_entries (members obj) <> [] -> Unload obj' = Undefined).
Proof.
  intros Hlen Hunload. unfold Unload in *.
  destruct (delete_entries (entry_alive obj)) as [alive| |] eqn:Hdel; try done.
  simpl in Hunload. injection Hunload as <-. cbn [members tabpane_loaded entry_alive].
  rewrite (delete_entries_Normal _ _ Hdel), delete_entries_deleted, Hlen.
  split; [done|]. split; [done|].
  destruct (m_menu_entries (members obj)) as [|e rest]; split; done.
Qed.

(** X17: the pointers [Unload] leaves behind make a later [Init] read
    deleted entries.  For an editor that had at least one menu entry, [Init]
    after [Unload] never completes: it ends with the error of the menu file,
    or it is undefined. *)
Theorem Init_after_Unload_never_completes
    layout_x layout_alpha files pixmaps image_files obj obj' :
  length (entry_alive obj) = length (m_menu_entries (members obj)) ->
  m_menu_entries (members obj) <> [] ->
  Unload obj = Normal obj' ->
  snd (Init_object layout_x layout_alpha files pixmaps image_files obj') <> Normal tt.
Proof.
  intros Hlen Hentries Hunload. unfold Unload in *.
  destruct (delete_entries (entry_alive obj)) as [alive| |] eqn:Hdel; try done.
  simpl in Hunload. injection Hunload as <-.
  unfold Init_object. cbn [members entry_alive].
  rewrite (delete_entries_Normal _ _ Hdel), Hlen.
  destruct (m_menu_entries (members obj)) as [|e rest]; [done|].
  cbn [length replicate app forallb id].
  by destruct (snd (parse_menu_file files _)).
Qed.

(** X18: [Unload] does not disable the editor.  After [Unload] on an
    enabled editor [m_enabled] is still set while the window is gone:
    [Enable] returns at once, and [Disable], and every update tick while the
    pointer is outside and the panel not rested, go through the null window
    pointer. *)
Theorem Unload_leaves_editor_enabled speedfactor_fps speed_factor obj obj' :
  Unload obj = Normal obj' ->
  m_enabled (members obj) = true ->
  m_enabled (members obj') = true /\
  Enable_object obj' = Normal obj' /\
  Disable_object obj' = Undefined /\
  (fading (members obj) ->
   Update_object speedfactor_fps speed_factor obj' = Undefined).
Proof.
  intros Hunload Hen. unfold Unload in *.
  destruct (delete_entries (entry_alive obj)) as [alive| |]; try done.
  simpl in Hunload. injection Hunload as <-.
  unfold Enable_object, Disable_object, Update_object.
  cbn [members tabpane_loaded]. rewrite Hen. repeat split; try done.
  intros (_ & -> & ->). done.
Qed.

Lemma second_Unload_deletes_again_witness :
  let obj := mkObject Sample.loaded_editor true [true; true; true] in
  exists obj',
    Unload obj = Normal obj' /\
    length (m_menu_entries (members obj')) = 3 /\
    Unload obj' = Undefined.
Proof.
  intros obj. eexists. split; [reflexivity|].
  destruct (second_Unload_deletes_again obj _ eq_refl eq_refl)
    as (_ & _ & _ & Hagain).
  split; [reflexivity|]. by apply Hagain.
Defined.

Lemma Init_after_Unload_never_completes_witness :
  let obj := mkObject Sample.loaded_editor true [true; true; true] in
  exists obj',
    Unload obj = Normal obj' /\
    snd (Init_object Sample.home_x 1 Sample.files Sample.pixmaps
           ["ground/stone.png"] obj') = Undefined.
Proof.
  intros obj. eexists. split; [reflexivity|].
  pose proof (Init_after_Unload_never_completes Sample.home_x 1 Sample.files
                Sample.pixmaps ["ground/stone.png"] obj _ eq_refl
                ltac:(discriminate) eq_refl) as Hnever.
  destruct (snd (Init_object _ _ _ _ _ _)) as [[]|e|] eqn:Hout;
    [by destruct Hnever | discriminate Hout | reflexivity].
Defined.

Lemma Unload_leaves_editor_enabled_witness :
  let obj := mkObject (on_mouse_leave (Enable Sample.loaded_editor)) true
               [true; true; true] in
  exists obj',
    Unload obj = Normal obj' /\
    Disable_object obj' = Undefined /\
    Update_object 32 1 obj' = Undefined.
Proof.
  intros obj. eexists. split; [reflexivity|].
  destruct (Unload_leaves_editor_enabled 32 1 obj _ eq_refl eq_refl)
    as (_ & _ & Hdisable & Hupdate).
  split; [exact Hdisable|]. apply Hupdate. by repeat split.
Defined.

(** ** Loading the menu twice *)

Lemma parse_menu_file_complete files ed p_root descriptors :
  files (m_menu_filename ed) = XmlDocument p_root ->
  Forall2 (fun p_node p_entry => parse_item p_node = Normal p_entry)
    (find_children "item" p_root) descriptors ->
  parse_menu_file files ed =
  (with_menu_entries (m_menu_entries ed ++ descriptors) ed, Normal tt).
Proof.
  intros Hfile Hall. unfold parse_menu_file. rewrite Hfile. cbn [parse_file].
  by apply parse_items_complete.
Qed.

(** X20: [parse_menu_file] only ever appends.  Loading a complete menu
    document a second time, without anything in between that empties
    [m_menu_entries], leaves every category in the menu twice: the entries
    are the old ones, followed by the descriptors of the document, followed
    by the same descriptors again. *)
Theorem parse_menu_file_twice_doubles_menu files ed p_root descriptors :
  files (m_menu_filename ed) = XmlDocument p_root ->
  Forall2 (fun p_node p_entry => parse_item p_node = Normal p_entry)
    (find_children "item" p_root) descriptors ->
  let twice := parse_menu_file files (parse_menu_file files ed).1 in
  snd twice = Normal tt /\
  m_menu_entries (fst twice) = m_menu_entries ed ++ descriptors ++ descriptors.
Proof.
  intros Hfile Hall. cbv zeta.
  rewrite (parse_menu_file_complete files ed p_root descriptors Hfile Hall).
  cbn [fst].
  rewrite (parse_menu_file_complete files
             (with_menu_entries (m_menu_entries ed ++ descriptors) ed)
             p_root descriptors Hfile Hall).
  cbn. by rewrite <- app_assoc.
Qed.

Lemma parse_menu_file_twice_doubles_menu_witness :
  m_name <$>
    m_menu_entries (parse_menu_file Sample.files Sample.loaded_editor).1 =
  ["Enemies"; "Ground"; "--- Special ---"; "Enemies"; "Ground"; "--- Special ---"].
Proof.
  destruct (parse_menu_file_twice_doubles_menu Sample.files Sample.level_editor
              Sample.menu (m_menu_entries Sample.loaded_editor) eq_refl)
    as [_ Hentries].
  - repeat constructor.
  - unfold Sample.loaded_editor. rewrite Hentries. reflexivity.
Defined.
